(** * Movies table client: data-access layer and interactive controller

    A shallow embedding of [dynamodb_handler.py] and [main.py].

    The remote table (boto3's [Table]) is an interface: a type class over
    the service state, whose operations return a reply or raise.  Python
    code that prints, reads the terminal and calls the service is written
    in a small monad over a [World]: the service state, the log of
    requests sent to the service, what was printed, and the lines still
    waiting on standard input.  An exception leaves the world as it was
    when it was raised (no roll-back), as in Python.  [while] loops take
    fuel; running out of fuel is its own outcome, distinct from a value
    and from an exception. *)

From Stdlib Require Import ZArith NArith List String Ascii Bool Arith Lia.
From Stdlib Require Import DecimalString.
Import ListNotations.
Local Open Scope string_scope.
Local Open Scope list_scope.

Set Implicit Arguments.
Set Warnings "-register-all".

(** ** Python values *)

(** [decimal.Decimal]: sign, coefficient and exponent, or a special value.
    The number denoted by [Dec s c e] is [(-1)^s * c * 10^e]. *)
Inductive Decimal : Type :=
| Dec (sign : bool) (coefficient : N) (exponent : Z)
| DecInf (sign : bool)
| DecNaN.

(** Python [float]: IEEE 754 binary64 data.  [FFin s m e] denotes
    [(-1)^s * m * 2^e]. *)
Inductive float : Type :=
| FNaN
| FInf (sign : bool)
| FZero (sign : bool)
| FFin (sign : bool) (m : positive) (e : Z).

(** What boto3 hands back for an attribute (None, bool, Decimal, str,
    Binary, list, dict, set), plus [int], which the controller puts in a
    key after [int(...)]. *)
Inductive value : Type :=
| VNone
| VBool (b : bool)
| VInt (z : Z)
| VDec (d : Decimal)
| VStr (s : string)
| VBytes (s : string)
| VList (l : list value)
| VMap (m : list (string * value))
| VSet (l : list value).

(** A dict with string keys, in insertion order. *)
Definition dict (A : Type) : Type := list (string * A).
Definition item : Type := dict value.

Fixpoint dict_get {A : Type} (d : dict A) (k : string) : option A :=
  match d with
  | [] => None
  | (k', v) :: d' => if String.eqb k' k then Some v else dict_get d' k
  end.

(** [d.get(k)]: [None] when the key is absent. *)
Definition get (d : item) (k : string) : value :=
  match dict_get d k with
  | Some v => v
  | None => VNone
  end.

(** [bool(Decimal)]: false for zero only. *)
Definition Decimal_bool (d : Decimal) : bool :=
  match d with
  | Dec _ c _ => negb (N.eqb c 0)
  | DecInf _ => true
  | DecNaN => true
  end.

Definition nonempty {A : Type} (l : list A) : bool :=
  match l with
  | [] => false
  | _ :: _ => true
  end.

(** Truth value of an object, as [if x:] tests it. *)
Definition truthy (v : value) : bool :=
  match v with
  | VNone => false
  | VBool b => b
  | VInt z => negb (Z.eqb z 0)
  | VDec d => Decimal_bool d
  | VStr s => negb (String.eqb s EmptyString)
  | VBytes _ => true
  | VList l => nonempty l
  | VMap m => nonempty m
  | VSet l => nonempty l
  end.

(** Exact numbers as mantissa and power of ten. *)
Definition exact : Type := (Z * Z)%type.

Definition exact_eqb (p q : exact) : bool :=
  let '(m1, e1) := p in
  let '(m2, e2) := q in
  let e := Z.min e1 e2 in
  Z.eqb (m1 * 10 ^ (e1 - e)) (m2 * 10 ^ (e2 - e)).

Definition Decimal_exact (d : Decimal) : option exact :=
  match d with
  | Dec s c e => Some (if s then (- Z.of_N c)%Z else Z.of_N c, e)
  | DecInf _ => None
  | DecNaN => None
  end.

(** The numeric tower: bool and int compare with Decimal by value. *)
Definition as_exact (v : value) : option exact :=
  match v with
  | VBool b => Some (if b then 1%Z else 0%Z, 0%Z)
  | VInt z => Some (z, 0%Z)
  | VDec d => Decimal_exact d
  | _ => None
  end.

(** [a == b]. *)
Fixpoint py_eq (a b : value) {struct a} : bool :=
  match a, b with
  | VNone, VNone => true
  | VStr s, VStr t => String.eqb s t
  | VBytes s, VBytes t => String.eqb s t
  | VList xs, VList ys =>
      (fix go (xs ys : list value) {struct xs} : bool :=
         match xs, ys with
         | [], [] => true
         | x :: xs', y :: ys' => py_eq x y && go xs' ys'
         | _, _ => false
         end) xs ys
  | VMap m, VMap n =>
      Nat.eqb (List.length m) (List.length n) &&
      (fix go (m : list (string * value)) {struct m} : bool :=
         match m with
         | [] => true
         | (k, v) :: m' =>
             match dict_get n k with
             | Some w => py_eq v w
             | None => false
             end && go m'
         end) m
  | VSet xs, VSet ys =>
      Nat.eqb (List.length xs) (List.length ys) &&
      (fix go (xs : list value) {struct xs} : bool :=
         match xs with
         | [] => true
         | x :: xs' => existsb (py_eq x) ys && go xs'
         end) xs
  | VDec (DecInf s), VDec (DecInf t) => Bool.eqb s t
  | _, _ =>
      match as_exact a, as_exact b with
      | Some p, Some q => exact_eqb p q
      | _, _ => false
      end
  end.

(** ** Exceptions and outcomes *)

Inductive exn : Type :=
| ClientError (code message : string)   (* botocore.exceptions.ClientError *)
| KeyError (key : string)
| ValueError
| TypeError
| EOFError
| OtherError (what : string).           (* any other Exception *)

(** What a [raise] carries is an instance of BaseException.  [exn] above
    holds the classes that derive from Exception; KeyboardInterrupt and
    SystemExit derive from BaseException directly, so that no
    [except Exception] clause, and no clause naming a class of [exn],
    catches them. *)
Inductive raised : Type :=
| Exc (e : exn)
| KeyboardInterrupt
| SystemExit.

Coercion Exc : exn >-> raised.

Inductive outcome (A : Type) : Type :=
| Ret (a : A)
| Raise (e : raised)
| OutOfFuel.

Arguments Raise {A} e.
Arguments OutOfFuel {A}.

(** ** The remote table *)

(** [table.scan(FilterExpression=Attr('title').eq(t), ExclusiveStartKey=k)],
    both arguments optional. *)
Record ScanRequest : Type := {
  FilterExpression : option string;
  ExclusiveStartKey : option item
}.

(** The response dict of a scan: ['Items'] and ['LastEvaluatedKey'] may
    each be absent. *)
Record ScanResponse : Type := {
  Items : option (list item);
  LastEvaluatedKey : option item
}.

(** [Key={'year': year, 'title': title}]. *)
Record Key : Type := {
  key_year : value;
  key_title : string
}.

Record UpdateRequest : Type := {
  upd_Key : Key;
  UpdateExpression : string;
  ExpressionAttributeValues : dict Decimal;
  upd_ReturnValues : string
}.

Record DeleteRequest : Type := {
  del_Key : Key;
  del_ReturnValues : string
}.

(** The response dict of update_item and delete_item.  boto3 always adds
    ['ResponseMetadata']; ['Attributes'] is there when the service sends
    attributes back. *)
Record Response : Type := {
  Attributes : option item;
  ResponseMetadata : item
}.

Definition response_keys (r : Response) : list string :=
  match Attributes r with
  | Some _ => ["Attributes"; "ResponseMetadata"]
  | None => ["ResponseMetadata"]
  end.

(** [if response:] on a response dict. *)
Definition response_truthy (r : Response) : bool := nonempty (response_keys r).

Inductive reply (A : Type) : Type :=
| Reply (a : A)
| Fault (e : raised).

Arguments Fault {A} e.

(** The table handle, over the state [S] of the service. *)
Class Table (S : Type) : Type := {
  connect : string -> string -> S -> reply unit * S;
  scan : ScanRequest -> S -> reply ScanResponse * S;
  update_item : UpdateRequest -> S -> reply Response * S;
  delete_item : DeleteRequest -> S -> reply Response * S
}.

(** Built-in conversions the code calls: [float(str)], [int(str)],
    [str(float)], [Decimal(str)] and [float(Decimal)]. *)
Class Builtins : Type := {
  float_of_str : string -> option float;      (* None: ValueError *)
  int_of_str : string -> option Z;            (* None: ValueError *)
  str_of_float : float -> string;
  Decimal_of_str : string -> option Decimal;  (* None: InvalidOperation *)
  float_of_Decimal : Decimal -> float
}.

Inductive Call : Type :=
| CScan (req : ScanRequest)
| CUpdate (req : UpdateRequest)
| CDelete (req : DeleteRequest).

(** ** What the program prints *)

(** JSON text as [json.dumps] builds it, before layout. *)
Inductive json : Type :=
| JNull
| JBool (b : bool)
| JInt (z : Z)
| JFloat (f : float)
| JStr (s : string)
| JList (l : list json)
| JObj (m : list (string * json)).

Inductive Prompt : Type :=
| PromptChoice          (* "Enter your choice (1-5): " *)
| PromptUpdateTitle     (* "Enter the title of the movie to update: " *)
| PromptRating          (* "Enter the new rating (e.g., 8.5): " *)
| PromptFindTitle       (* "Enter the title of the movie to find: " *)
| PromptDeleteTitle     (* "Enter the title of the movie to delete: " *)
| PromptConfirm (title year : value)
                        (* "Are you sure you want to delete '..' (..)? (y/n): " *)
| PromptYear.           (* "Enter the YEAR of the movie to delete: " *)

(** One constructor per [print] of the source, with the values it
    interpolates; [Asked] is the prompt text written by [input]. *)
Inductive Msg : Type :=
| MsgConnectError (e : exn)
| MsgScanning
| MsgFoundRecords (n : nat)
| MsgError (message : string)
| MsgUpdating (title : string) (year : value) (new_rating : float)
| MsgUpdateSuccessful
| MsgUpdateNotFound (title : string) (year : value)
| MsgUpdateError (message : string)
| MsgAttemptUpdate (title : string) (new_rating : float)
| MsgNoMovieNoUpdates (title : string)
| MsgFoundToUpdate (n : nat) (title : string)
| MsgWarnYearMissing (title : string)
| MsgUpdatedCount (n : nat) (title : string)
| MsgNoUpdatesApplied (title : string)
| MsgSearchError (message : string)
| MsgSearching (title : string)
| MsgNoMovieFound (title : string)
| MsgFoundMovies (n : nat) (title : string)
| MsgDeleting (title : string) (year : value)
| MsgDeletionSuccessful
| MsgDeleteNotFound (title : string) (year : value)
| MsgDeleteError (message : string)
| MsgNoRecords
| MsgDisplayHeader
| MsgRecordHeader (i : nat)
| MsgRecordJson (j : json)
| MsgDisplayFooter
| MsgStarting
| MsgMenuHeader
| MsgMenuOption (n : nat)
| MsgFetchingAll
| MsgUpdateBanner
| MsgInvalidRating
| MsgFindBanner
| MsgDeleteBanner
| MsgFoundOne
| MsgFoundMultiple
| MsgInvalidYear
| MsgNoTitleYear (title : string) (year : value)
| MsgInvalidChoice
| MsgMainError (e : exn)
| MsgFinished
| Asked (p : Prompt).

(** ** The world and the monad *)

Record World (S : Type) : Type := mkWorld {
  store : S;
  calls : list Call;
  stdout : list Msg;
  stdin : list string
}.

Definition M (S A : Type) : Type := World S -> outcome A * World S.

Section Monad.
Context {S : Type}.

Definition ret {A : Type} (a : A) : M S A := fun w => (Ret a, w).

Definition bind {A B : Type} (c : M S A) (k : A -> M S B) : M S B :=
  fun w =>
    match c w with
    | (Ret a, w') => k a w'
    | (Raise e, w') => (Raise e, w')
    | (OutOfFuel, w') => (OutOfFuel, w')
    end.

Definition raise {A : Type} (e : raised) : M S A := fun w => (Raise e, w).

Definition out_of_fuel {A : Type} : M S A := fun w => (OutOfFuel, w).

(** [try: c except E as e: h e]; [h] answers [None] for the exceptions
    the clause does not name, which then go on propagating. *)
Definition try_except {A : Type} (c : M S A) (h : raised -> option (M S A)) : M S A :=
  fun w =>
    match c w with
    | (Raise e, w') =>
        match h e with
        | Some k => k w'
        | None => (Raise e, w')
        end
    | r => r
    end.

Definition print (m : Msg) : M S unit :=
  fun w => (Ret tt, mkWorld (store w) (calls w) (stdout w ++ [m]) (stdin w)).

(** [input(prompt)]: writes the prompt, then reads a line; EOFError at
    the end of the input.  The input is a list of lines: a Ctrl-C at the
    prompt is not among them, an interrupt reaches the program through a
    request to the service. *)
Definition input (p : Prompt) : M S string :=
  fun w =>
    let out := stdout w ++ [Asked p] in
    match stdin w with
    | [] => (Raise EOFError, mkWorld (store w) (calls w) out [])
    | l :: rest => (Ret l, mkWorld (store w) (calls w) out rest)
    end.

Definition of_reply {A : Type} (r : reply A) : outcome A :=
  match r with
  | Reply a => Ret a
  | Fault e => Raise e
  end.

(** A request to the service: logged, then answered by the service. *)
Definition request {A : Type} (c : Call) (op : S -> reply A * S) : M S A :=
  fun w =>
    let '(r, s') := op (store w) in
    (of_reply r, mkWorld s' (calls w ++ [c]) (stdout w) (stdin w)).
End Monad.

Notation "x <- c ;; k" := (bind c (fun x => k))
  (at level 61, c at next level, right associativity).
Notation "c ;; k" := (bind c (fun _ => k))
  (at level 61, right associativity).

(** [except ClientError as e:] *)
Definition on_ClientError {S A : Type} (h : string -> string -> M S A)
  (e : raised) : option (M S A) :=
  match e with
  | Exc (ClientError code message) => Some (h code message)
  | _ => None
  end.

(** [except Exception as e:] *)
Definition on_Exception {S A : Type} (h : exn -> M S A) (e : raised) : option (M S A) :=
  match e with
  | Exc e' => Some (h e')
  | KeyboardInterrupt | SystemExit => None
  end.

(** ** dynamodb_handler.py: class DynamoDBHandler *)

Section Handler.
Context {S : Type} {T : Table S} {B : Builtins}.

(** [response.get('Items', [])] *)
Definition get_Items (response : ScanResponse) : list item :=
  match Items response with
  | Some l => l
  | None => []
  end.

(** [self.table.scan(...)] *)
Definition table_scan (flt : option string) (start : option item) : M S ScanResponse :=
  let req := {| FilterExpression := flt; ExclusiveStartKey := start |} in
  request (CScan req) (scan req).

(** [while 'LastEvaluatedKey' in response:] with its body, shared by the
    three methods that scan. *)
Fixpoint scan_pages (fuel : nat) (flt : option string)
    (response : ScanResponse) (items : list item) : M S (list item) :=
  match LastEvaluatedKey response with
  | None => ret items
  | Some k =>
      match fuel with
      | O => out_of_fuel
      | Datatypes.S fuel' =>
          response' <- table_scan flt (Some k) ;;
          scan_pages fuel' flt response' (items ++ get_Items response')
      end
  end.

(** The first scan and the loop after it. *)
Definition scan_all (fuel : nat) (flt : option string) : M S (list item) :=
  response <- table_scan flt None ;;
  scan_pages fuel flt response (get_Items response).

Definition DynamoDBHandler_init (table_name region_name : string) : M S unit :=
  try_except
    (fun w =>
       let '(r, s') := connect table_name region_name (store w) in
       (of_reply r, mkWorld s' (calls w) (stdout w) (stdin w)))
    (on_Exception (fun e => print (MsgConnectError e) ;; raise e)).

Definition get_all_records (fuel : nat) : M S (option (list item)) :=
  try_except
    (print MsgScanning ;;
     items <- scan_all fuel None ;;
     print (MsgFoundRecords (List.length items)) ;;
     ret (Some items))
    (on_ClientError (fun _ message =>
       print (MsgError message) ;;
       ret None)).

(** [Decimal(s)] *)
Definition Decimal_str (s : string) : M S Decimal :=
  match Decimal_of_str s with
  | Some d => ret d
  | None => raise (OtherError "InvalidOperation")
  end.

Definition update_movie_rating (year : value) (title : string)
    (new_rating : float) : M S (option Response) :=
  try_except
    (print (MsgUpdating title year new_rating) ;;
     r <- Decimal_str (str_of_float new_rating) ;;
     let req := {| upd_Key := {| key_year := year; key_title := title |};
                   UpdateExpression := "set info.rating = :r";
                   ExpressionAttributeValues := [(":r", r)];
                   upd_ReturnValues := "UPDATED_NEW" |} in
     response <- request (CUpdate req) (update_item req) ;;
     print MsgUpdateSuccessful ;;
     ret (Some response))
    (on_ClientError (fun code message =>
       (if String.eqb code "ConditionalCheckFailedException"
        then print (MsgUpdateNotFound title year)
        else print (MsgUpdateError message)) ;;
       ret None)).

(** [for item in items_to_update:] with its body; [updated_responses] is
    the list built so far. *)
Fixpoint update_each (title : string) (new_rating : float)
    (items_to_update : list item) (updated_responses : list Response)
    : M S (list Response) :=
  match items_to_update with
  | [] => ret updated_responses
  | item :: rest =>
      let movie_year := get item "year" in
      if truthy movie_year then
        update_response <- update_movie_rating movie_year title new_rating ;;
        match update_response with
        | Some response =>
            if response_truthy response
            then update_each title new_rating rest (updated_responses ++ [response])
            else update_each title new_rating rest updated_responses
        | None => update_each title new_rating rest updated_responses
        end
      else
        print (MsgWarnYearMissing title) ;;
        update_each title new_rating rest updated_responses
  end.

Definition update_movie_rating_by_title (fuel : nat) (title : string)
    (new_rating : float) : M S (option (list Response)) :=
  print (MsgAttemptUpdate title new_rating) ;;
  try_except
    (items_to_update <- scan_all fuel (Some title) ;;
     if nonempty items_to_update then
       print (MsgFoundToUpdate (List.length items_to_update) title) ;;
       updated_responses <- update_each title new_rating items_to_update [] ;;
       if nonempty updated_responses then
         print (MsgUpdatedCount (List.length updated_responses) title) ;;
         ret (Some updated_responses)
       else
         print (MsgNoUpdatesApplied title) ;;
         ret None
     else
       print (MsgNoMovieNoUpdates title) ;;
       ret None)
    (on_ClientError (fun _ message =>
       print (MsgSearchError message) ;;
       ret None)).

Definition find_movies_by_title (fuel : nat) (title : string) : M S (list item) :=
  print (MsgSearching title) ;;
  try_except
    (items <- scan_all fuel (Some title) ;;
     (if nonempty items
      then print (MsgFoundMovies (List.length items) title)
      else print (MsgNoMovieFound title)) ;;
     ret items)
    (on_ClientError (fun _ message =>
       print (MsgSearchError message) ;;
       ret [])).

Definition delete_movie (year : value) (title : string) : M S (option Response) :=
  try_except
    (print (MsgDeleting title year) ;;
     let req := {| del_Key := {| key_year := year; key_title := title |};
                   del_ReturnValues := "ALL_OLD" |} in
     response <- request (CDelete req) (delete_item req) ;;
     match Attributes response with
     | Some _ => print MsgDeletionSuccessful
     | None => print (MsgDeleteNotFound title year)
     end ;;
     ret (Some response))
    (on_ClientError (fun _ message =>
       print (MsgDeleteError message) ;;
       ret None)).

(** ** class DecimalEncoder, under [json.dumps(record, cls=DecimalEncoder)] *)

(** [DecimalEncoder.default(o)]: a Decimal becomes a float; for anything
    else the base class raises TypeError. *)
Definition DecimalEncoder_default (o : value) : option float :=
  match o with
  | VDec d => Some (float_of_Decimal d)
  | _ => None
  end.

(** The encoder's walk: what JSON knows is encoded directly, the rest
    goes through [default]. *)
Fixpoint encode (o : value) : option json :=
  match o with
  | VNone => Some JNull
  | VBool b => Some (JBool b)
  | VInt z => Some (JInt z)
  | VStr s => Some (JStr s)
  | VList l =>
      option_map JList
        ((fix go (l : list value) : option (list json) :=
            match l with
            | [] => Some []
            | x :: l' =>
                match encode x, go l' with
                | Some j, Some js => Some (j :: js)
                | _, _ => None
                end
            end) l)
  | VMap m =>
      option_map JObj
        ((fix go (m : list (string * value)) : option (list (string * json)) :=
            match m with
            | [] => Some []
            | (k, x) :: m' =>
                match encode x, go m' with
                | Some j, Some js => Some ((k, j) :: js)
                | _, _ => None
                end
            end) m)
  | VDec _ | VBytes _ | VSet _ => option_map JFloat (DecimalEncoder_default o)
  end.

Definition json_dumps (record : item) : M S json :=
  match encode (VMap record) with
  | Some j => ret j
  | None => raise TypeError
  end.
End Handler.

(** ** main.py *)

(** [str.lower()] on ASCII letters; the only use compares the result with
    ["y"], and no other character lowers to that letter. *)
Definition lower_ascii (c : ascii) : ascii :=
  let n := nat_of_ascii c in
  if (65 <=? n)%nat && (n <=? 90)%nat then ascii_of_nat (n + 32) else c.

Fixpoint lower (s : string) : string :=
  match s with
  | EmptyString => EmptyString
  | String c s' => String (lower_ascii c) (lower s')
  end.

Section Controller.
Context {S : Type} {T : Table S} {B : Builtins}.

(** [for i, record in enumerate(records, 1):] with its body. *)
Fixpoint display_each (i : nat) (records : list item) : M S unit :=
  match records with
  | [] => ret tt
  | record :: rest =>
      print (MsgRecordHeader i) ;;
      j <- json_dumps record ;;
      print (MsgRecordJson j) ;;
      display_each (Datatypes.S i) rest
  end.

Definition display_records (records : list item) : M S unit :=
  if nonempty records then
    print MsgDisplayHeader ;;
    display_each 1 records ;;
    print MsgDisplayFooter
  else
    print MsgNoRecords.

(** [d[k]]: KeyError when the key is absent. *)
Definition getitem (d : item) (k : string) : M S value :=
  match dict_get d k with
  | Some v => ret v
  | None => raise (KeyError k)
  end.

(** [any(movie['year'] == year_to_delete for movie in found_movies)] *)
Fixpoint any_year (year_to_delete : value) (found_movies : list item) : M S bool :=
  match found_movies with
  | [] => ret false
  | movie :: rest =>
      y <- getitem movie "year" ;;
      if py_eq y year_to_delete then ret true else any_year year_to_delete rest
  end.

(** Choice 1. *)
Definition menu_fetch_all (fuel : nat) : M S unit :=
  print MsgFetchingAll ;;
  all_records <- get_all_records fuel ;;
  match all_records with
  | Some records => display_records records
  | None => ret tt
  end.

(** [while not new_rating_str:] with its body; the loop is left with the
    float of the last line read. *)
Fixpoint rating_loop (fuel : nat) : M S float :=
  match fuel with
  | O => out_of_fuel
  | Datatypes.S fuel' =>
      new_rating_str <- input PromptRating ;;
      match float_of_str new_rating_str with
      | Some new_rating =>
          if String.eqb new_rating_str EmptyString then rating_loop fuel' else ret new_rating
      | None =>
          print MsgInvalidRating ;;
          rating_loop fuel'
      end
  end.

(** Choice 2. *)
Definition menu_update (fuel : nat) : M S unit :=
  print MsgUpdateBanner ;;
  movie_title_to_update <- input PromptUpdateTitle ;;
  new_rating <- rating_loop fuel ;;
  update_movie_rating_by_title fuel movie_title_to_update new_rating ;;
  ret tt.

(** Choice 3. *)
Definition menu_find (fuel : nat) : M S unit :=
  print MsgFindBanner ;;
  movie_title_to_find <- input PromptFindTitle ;;
  found_movies <- find_movies_by_title fuel movie_title_to_find ;;
  if nonempty found_movies then display_records found_movies else ret tt.

(** [except ValueError:] *)
Definition on_ValueError {A : Type} (h : M S A) (e : raised) : option (M S A) :=
  match e with
  | Exc ValueError => Some h
  | _ => None
  end.

(** [int(s)] *)
Definition int_str (s : string) : M S Z :=
  match int_of_str s with
  | Some z => ret z
  | None => raise ValueError
  end.

(** Choice 4, from [year_to_delete = None] to the end of the two
    branches on [len(found_movies)]: the value of [year_to_delete]. *)
Definition choose_year (found_movies : list item) : M S value :=
  match found_movies with
  | [movie] =>
      print MsgFoundOne ;;
      display_records [movie] ;;
      title <- getitem movie "title" ;;
      year <- getitem movie "year" ;;
      confirm <- input (PromptConfirm title year) ;;
      if String.eqb (lower confirm) "y" then getitem movie "year" else ret VNone
  | _ =>
      print MsgFoundMultiple ;;
      display_records found_movies ;;
      try_except
        (year_to_delete_str <- input PromptYear ;;
         z <- int_str year_to_delete_str ;;
         ret (VInt z))
        (on_ValueError (print MsgInvalidYear ;; ret VNone))
  end.

(** Choice 4, after the lookup. *)
Definition delete_found (movie_title_to_delete : string)
    (found_movies : list item) : M S unit :=
  if nonempty found_movies then
    year_to_delete <- choose_year found_movies ;;
    match year_to_delete with
    | VNone => ret tt
    | _ =>
        valid <- any_year year_to_delete found_movies ;;
        if valid : bool then
          delete_movie year_to_delete movie_title_to_delete ;;
          ret tt
        else
          print (MsgNoTitleYear movie_title_to_delete year_to_delete)
    end
  else ret tt.

(** Choice 4. *)
Definition menu_delete (fuel : nat) : M S unit :=
  print MsgDeleteBanner ;;
  movie_title_to_delete <- input PromptDeleteTitle ;;
  found_movies <- find_movies_by_title fuel movie_title_to_delete ;;
  delete_found movie_title_to_delete found_movies.

Definition print_menu : M S unit :=
  print MsgMenuHeader ;;
  print (MsgMenuOption 1) ;;
  print (MsgMenuOption 2) ;;
  print (MsgMenuOption 3) ;;
  print (MsgMenuOption 4) ;;
  print (MsgMenuOption 5).

(** [while True:] with its body; [n] bounds the number of menu rounds,
    [fuel] the loops inside one round. *)
Fixpoint main_loop (n fuel : nat) : M S unit :=
  match n with
  | O => out_of_fuel
  | Datatypes.S n' =>
      print_menu ;;
      choice <- input PromptChoice ;;
      if String.eqb choice "1" then menu_fetch_all fuel ;; main_loop n' fuel
      else if String.eqb choice "2" then menu_update fuel ;; main_loop n' fuel
      else if String.eqb choice "3" then menu_find fuel ;; main_loop n' fuel
      else if String.eqb choice "4" then menu_delete fuel ;; main_loop n' fuel
      else if String.eqb choice "5" then ret tt
      else print MsgInvalidChoice ;; main_loop n' fuel
  end.

(** config.py *)
Definition AWS_REGION : string := "us-east-1".
Definition DYNAMODB_TABLE_NAME : string := "Movies".

Definition main (n fuel : nat) : M S unit :=
  print MsgStarting ;;
  try_except
    (DynamoDBHandler_init DYNAMODB_TABLE_NAME AWS_REGION ;;
     main_loop n fuel)
    (on_Exception (fun e => print (MsgMainError e))) ;;
  print MsgFinished.
End Controller.

(** ** The built-in conversions of CPython

    An instance of [Builtins] for literals in the grammar
    [ws* sign? (digits (. digits?)? | . digits) ((e|E) sign? digits)? ws*],
    [inf], [infinity] and [nan]: [float(...)] rounds to the nearest
    binary64 value, ties to even; [str(float)] is the shortest digit
    string that reads back as the same float.  Digits may be grouped
    with underscores: [int] and [float] take one underscore between two
    digits, [Decimal] ignores underscores wherever they are.  Lines are
    ASCII; the digits and spaces of other scripts, which Python reads as
    well, are not in the grammar. *)


Module CPython.

Definition is_space (c : ascii) : bool :=
  let n := nat_of_ascii c in
  (n =? 32)%nat || ((9 <=? n)%nat && (n <=? 13)%nat).

Definition is_digit (c : ascii) : bool :=
  let n := nat_of_ascii c in
  (48 <=? n)%nat && (n <=? 57)%nat.

Fixpoint lstrip (s : string) : string :=
  match s with
  | String c s' => if is_space c then lstrip s' else s
  | EmptyString => EmptyString
  end.

(** [s.strip()] *)
Fixpoint rstrip (s : string) : string :=
  match s with
  | EmptyString => EmptyString
  | String c s' =>
      match rstrip s' with
      | EmptyString => if is_space c then EmptyString else String c EmptyString
      | r => String c r
      end
  end.

Definition strip (s : string) : string := rstrip (lstrip s).

(** Splits a string after its leading digits. *)
Fixpoint span_digits (s : string) : string * string :=
  match s with
  | String c s' =>
      if is_digit c
      then let '(d, r) := span_digits s' in (String c d, r)
      else (EmptyString, s)
  | EmptyString => (EmptyString, EmptyString)
  end.

Definition nat_of_digits (d : string) : N :=
  match NilEmpty.uint_of_string d with
  | Some u => N.of_uint u
  | None => 0%N
  end.

(** Underscores in [int] and [float] literals: each one after a digit
    and before a digit. *)
Fixpoint underscores_ok (prev : ascii) (s : string) : bool :=
  match s with
  | EmptyString => negb (Ascii.eqb prev "_")
  | String c s' =>
      (if Ascii.eqb c "_" then is_digit prev
       else if Ascii.eqb prev "_" then is_digit c
       else true)
      && underscores_ok c s'
  end.

Fixpoint drop_underscores (s : string) : string :=
  match s with
  | EmptyString => EmptyString
  | String c s' =>
      if Ascii.eqb c "_" then drop_underscores s' else String c (drop_underscores s')
  end.

(** An optional sign: [true] for minus. *)
Definition split_sign (s : string) : bool * string :=
  match s with
  | String "-" s' => (true, s')
  | String "+" s' => (false, s')
  | _ => (false, s)
  end.

(** The exponent part, which must end the literal. *)
Definition parse_exponent (s : string) : option Z :=
  match s with
  | EmptyString => Some 0%Z
  | String c s' =>
      if String.eqb (lower (String c EmptyString)) "e" then
        let '(neg, s'') := split_sign s' in
        let '(d, r) := span_digits s'' in
        match d, r with
        | EmptyString, _ => None
        | _, EmptyString =>
            let x := Z.of_N (nat_of_digits d) in
            Some (if neg then (- x)%Z else x)
        | _, _ => None
        end
      else None
  end.

(** [Decimal(s)] *)
Definition parse_decimal (s : string) : option Decimal :=
  let '(neg, body) := split_sign (drop_underscores (strip s)) in
  let word := lower body in
  if String.eqb word "inf" || String.eqb word "infinity" then Some (DecInf neg)
  else if String.eqb word "nan" then Some DecNaN
  else
    let '(ip, r1) := span_digits body in
    let '(fp, r2) :=
      match r1 with
      | String "." r => span_digits r
      | _ => (EmptyString, r1)
      end in
    match String.append ip fp with
    | EmptyString => None
    | ds =>
        match parse_exponent r2 with
        | Some x => Some (Dec neg (nat_of_digits ds) (x - Z.of_nat (String.length fp)))
        | None => None
        end
    end.

(** [int(s)] *)
Definition parse_int (s : string) : option Z :=
  let '(neg, body) := split_sign (strip s) in
  if negb (underscores_ok " " body) then None
  else
    let '(d, r) := span_digits (drop_underscores body) in
    match d, r with
    | EmptyString, _ => None
    | _, EmptyString =>
        let x := Z.of_N (nat_of_digits d) in
        Some (if neg then (- x)%Z else x)
    | _, _ => None
    end.

Local Open Scope Z_scope.

(** Half-even rounding of [num / den] to an integer. *)
Definition round_half_even (num den : Z) : Z :=
  let n := num / den in
  let r := num mod den in
  if 2 * r <? den then n
  else if den <? 2 * r then n + 1
  else if Z.even n then n else n + 1.

(** The binary64 value nearest to [p / q], for [p, q > 0]: 53 bits of
    mantissa, exponents from -1074 to 971. *)
Definition round_ratio (s : bool) (p q : Z) : float :=
  let scaled (e : Z) : Z * Z :=
    if 0 <=? e then (p, q * 2 ^ e) else (p * 2 ^ (- e), q) in
  let e1 := Z.log2 p - Z.log2 q - 52 in
  let e2 := if (let '(n, d) := scaled e1 in n / d) <? 2 ^ 52 then e1 - 1 else e1 in
  let e := Z.max e2 (-1074) in
  let '(num, den) := scaled e in
  let n := round_half_even num den in
  let '(m, e') := if n =? 2 ^ 53 then (2 ^ 52, e + 1) else (n, e) in
  if m =? 0 then FZero s
  else if 971 <? e' then FInf s
  else FFin s (Z.to_pos m) e'.

(** [float(Decimal)] *)
Definition Decimal_to_float (d : Decimal) : float :=
  match d with
  | DecNaN => FNaN
  | DecInf s => FInf s
  | Dec s 0%N _ => FZero s
  | Dec s c e =>
      if 0 <=? e then round_ratio s (Z.of_N c * 10 ^ e) 1
      else round_ratio s (Z.of_N c) (10 ^ (- e))
  end.

(** [float(s)] *)
Definition parse_float (s : string) : option float :=
  if underscores_ok " " s then option_map Decimal_to_float (parse_decimal s)
  else None.

Definition float_eqb (x y : float) : bool :=
  match x, y with
  | FFin s m e, FFin s' m' e' => Bool.eqb s s' && Pos.eqb m m' && Z.eqb e e'
  | FZero s, FZero s' => Bool.eqb s s'
  | FInf s, FInf s' => Bool.eqb s s'
  | _, _ => false
  end.

(** The positive [m * 2^e] as a fraction. *)
Definition ratio_of (m : positive) (e : Z) : Z * Z :=
  if 0 <=? e then (Z.pos m * 2 ^ e, 1) else (Z.pos m, 2 ^ (- e)).

(** Moves [k] until [10^k <= num/den < 10^(k+1)]. *)
Fixpoint settle_log10 (fuel : nat) (num den k : Z) : Z :=
  match fuel with
  | O => k
  | Datatypes.S fuel' =>
      let le_pow (j : Z) : bool :=          (* 10^j <= num/den *)
        if 0 <=? j then den * 10 ^ j <=? num else den <=? num * 10 ^ (- j) in
      if negb (le_pow k) then settle_log10 fuel' num den (k - 1)
      else if le_pow (k + 1) then settle_log10 fuel' num den (k + 1)
      else k
  end.

Definition floor_log10 (num den : Z) : Z :=
  settle_log10 8 num den ((Z.log2 num - Z.log2 den) * 30103 / 100000).

(** The digit string of [n] digits that reads back as [FFin false m e],
    if there is one: the integer [D] and the scale [sc] with value
    [D * 10^(-sc)], the nearer of the two neighbours when both do. *)
Definition digits_at (m : positive) (e : Z) (n : Z) : option (Z * Z) :=
  let '(num, den) := ratio_of m e in
  let sc := n - 1 - floor_log10 num den in
  let '(ynum, yden) :=
    if 0 <=? sc then (num * 10 ^ sc, den) else (num, den * 10 ^ (- sc)) in
  let lo := ynum / yden in
  let hi := if ynum mod yden =? 0 then lo else lo + 1 in
  let back (D : Z) : bool :=
    float_eqb
      (if 0 <=? sc then round_ratio false D (10 ^ sc)
       else round_ratio false (D * 10 ^ (- sc)) 1)
      (FFin false m e) in
  let near := round_half_even ynum yden in
  match back lo, back hi with
  | true, true => Some (if near =? lo then lo else hi, sc)
  | true, false => Some (lo, sc)
  | false, true => Some (hi, sc)
  | false, false => None
  end.

Fixpoint shortest_from (fuel : nat) (m : positive) (e : Z) (n : Z) : Z * Z :=
  match fuel with
  | O => (Z.pos m, 0)
  | Datatypes.S fuel' =>
      match digits_at m e n with
      | Some r => r
      | None => shortest_from fuel' m e (n + 1)
      end
  end.

(** Drops the trailing zeros of [D], lowering the scale with them. *)
Fixpoint drop_zeros (fuel : nat) (D sc : Z) : Z * Z :=
  match fuel with
  | O => (D, sc)
  | Datatypes.S fuel' =>
      if (D mod 10 =? 0) && negb (D =? 0) then drop_zeros fuel' (D / 10) (sc - 1)
      else (D, sc)
  end.

(** The digits of the shortest representation and the position of the
    decimal point: the value is [0.digits * 10^decpt]. *)
Definition shortest_digits (m : positive) (e : Z) : string * Z :=
  let '(D0, sc0) := shortest_from 17 m e 1 in
  let '(D, sc) := drop_zeros 400 D0 sc0 in
  let ds := NilEmpty.string_of_uint (N.to_uint (Z.to_N D)) in
  (ds, Z.of_nat (String.length ds) - sc).

Fixpoint zeros (n : nat) : string :=
  match n with
  | O => EmptyString
  | Datatypes.S n' => String "0" (zeros n')
  end.

Definition two_digits (x : Z) : string :=
  let ds := NilZero.string_of_uint (N.to_uint (Z.to_N x)) in
  if (String.length ds <? 2)%nat then String.append "0" ds else ds.

(** [repr] of a positive finite float from its digits. *)
Definition format_repr (ds : string) (decpt : Z) : string :=
  let nd := Z.of_nat (String.length ds) in
  if (decpt <=? -4) || (16 <? decpt) then
    let x := decpt - 1 in
    let mant :=
      match ds with
      | String c EmptyString => ds
      | String c r => String c (String.append "." r)
      | EmptyString => ds
      end in
    String.append mant
      (String.append (if x <? 0 then "e-" else "e+") (two_digits (Z.abs x)))
  else if decpt <=? 0 then
    String.append "0." (String.append (zeros (Z.to_nat (- decpt))) ds)
  else if nd <=? decpt then
    String.append ds (String.append (zeros (Z.to_nat (decpt - nd))) ".0")
  else
    String.append (substring 0 (Z.to_nat decpt) ds)
      (String.append "." (substring (Z.to_nat decpt) (Z.to_nat (nd - decpt)) ds)).

Definition with_sign (s : bool) (t : string) : string :=
  if s then String.append "-" t else t.

(** [str(x)], which is [repr(x)], for a float. *)
Definition float_repr (x : float) : string :=
  match x with
  | FNaN => "nan"
  | FInf s => with_sign s "inf"
  | FZero s => with_sign s "0.0"
  | FFin s m e =>
      let '(ds, decpt) := shortest_digits m e in
      with_sign s (format_repr ds decpt)
  end.

(** How [json.dumps] writes a float. *)
Definition json_float (x : float) : string :=
  match x with
  | FNaN => "NaN"
  | FInf s => with_sign s "Infinity"
  | _ => float_repr x
  end.

Definition builtins : Builtins := {|
  float_of_str := parse_float;
  int_of_str := parse_int;
  str_of_float := float_repr;
  Decimal_of_str := parse_decimal;
  float_of_Decimal := Decimal_to_float
|}.

End CPython.

(** ** A table in memory

    An instance of [Table] to run the code on: the rows in table order, a
    page size for scans (0: no limit), and a schedule of faults, one entry
    per request, [Some e] making that request raise [e].  A filter is
    applied to a page after it is cut, so a page may come back empty with
    a continuation key, as on the service. *)

Module MemTable.

Record state : Type := {
  rows : list item;
  page_size : nat;
  schedule : list (option exn)
}.

Definition next_fault (s : state) : option exn * state :=
  match schedule s with
  | [] => (None, s)
  | f :: rest => (f, {| rows := rows s; page_size := page_size s; schedule := rest |})
  end.

Definition key_of (r : item) : item :=
  [("year", get r "year"); ("title", get r "title")].

Definition has_key (year title : value) (r : item) : bool :=
  py_eq (get r "year") year && py_eq (get r "title") title.

(** The rows after the one a continuation key names. *)
Fixpoint after_key (k : item) (l : list item) : list item :=
  match l with
  | [] => []
  | r :: l' => if has_key (get k "year") (get k "title") r then l' else after_key k l'
  end.

Definition matches (flt : option string) (r : item) : bool :=
  match flt with
  | Some t => py_eq (get r "title") (VStr t)
  | None => true
  end.

Definition mem_scan (req : ScanRequest) (s : state) : reply ScanResponse * state :=
  let '(f, s') := next_fault s in
  match f with
  | Some e => (Fault e, s')
  | None =>
      let remaining :=
        match ExclusiveStartKey req with
        | Some k => after_key k (rows s')
        | None => rows s'
        end in
      let '(page, rest) :=
        match page_size s' with
        | O => (remaining, [])
        | n => (firstn n remaining, skipn n remaining)
        end in
      (Reply {| Items := Some (filter (matches (FilterExpression req)) page);
                LastEvaluatedKey :=
                  match rest with
                  | [] => None
                  | _ :: _ => option_map key_of (last (map Some page) None)
                  end |}, s')
  end.

Fixpoint dict_set {A : Type} (d : dict A) (k : string) (v : A) : dict A :=
  match d with
  | [] => [(k, v)]
  | (k', v') :: d' =>
      if String.eqb k' k then (k, v) :: d' else (k', v') :: dict_set d' k v
  end.

(** [set info.rating = :r] on the row with the key; [None] when no row
    has the key or the row has no [info] map. *)
Fixpoint set_rating (year title : value) (r : Decimal) (l : list item)
    : option (list item) :=
  match l with
  | [] => None
  | row :: l' =>
      if has_key year title row then
        match dict_get row "info" with
        | Some (VMap info) =>
            Some (dict_set row "info" (VMap (dict_set info "rating" (VDec r))) :: l')
        | _ => None
        end
      else option_map (cons row) (set_rating year title r l')
  end.

Definition mem_update_item (req : UpdateRequest) (s : state) : reply Response * state :=
  let '(f, s') := next_fault s in
  match f with
  | Some e => (Fault e, s')
  | None =>
      let k := upd_Key req in
      match dict_get (ExpressionAttributeValues req) ":r" with
      | Some DecNaN | Some (DecInf false) =>
          (* boto3's serializer: TypeError('Infinity and NaN not supported') *)
          (Fault TypeError, s')
      | Some (DecInf true) =>
          (Fault (ClientError "ValidationException"
                    "The parameter cannot be converted to a numeric value: -Infinity"), s')
      | Some r =>
          match set_rating (key_year k) (VStr (key_title k)) r (rows s') with
          | Some rows' =>
              (Reply {| Attributes := Some [("info", VMap [("rating", VDec r)])];
                        ResponseMetadata := [] |},
               {| rows := rows'; page_size := page_size s'; schedule := schedule s' |})
          | None =>
              (Fault (ClientError "ValidationException"
                        "The document path provided in the update expression is invalid for update"),
               s')
          end
      | None =>
          (Fault (ClientError "ValidationException" "An expression attribute value is missing"), s')
      end
  end.

Fixpoint remove_key (year title : value) (l : list item) : option item * list item :=
  match l with
  | [] => (None, [])
  | row :: l' =>
      if has_key year title row then (Some row, l')
      else let '(old, l'') := remove_key year title l' in (old, row :: l'')
  end.

Definition mem_delete_item (req : DeleteRequest) (s : state) : reply Response * state :=
  let '(f, s') := next_fault s in
  match f with
  | Some e => (Fault e, s')
  | None =>
      let k := del_Key req in
      let '(old, rows') := remove_key (key_year k) (VStr (key_title k)) (rows s') in
      (Reply {| Attributes :=
                  if String.eqb (del_ReturnValues req) "ALL_OLD" then old else None;
                ResponseMetadata := [] |},
       {| rows := rows'; page_size := page_size s'; schedule := schedule s' |})
  end.

Definition table : Table state := {|
  connect := fun _ _ s => (Reply tt, s);
  scan := mem_scan;
  update_item := mem_update_item;
  delete_item := mem_delete_item
|}.

(** A movie row. *)
Definition movie (year : Z) (title : string) (rating : Decimal) : item :=
  [("year", VDec (Dec false (Z.to_N year) 0)); ("title", VStr title);
   ("info", VMap [("rating", VDec rating)])].

Definition world (rows : list item) (page_size : nat) (schedule : list (option exn))
    (stdin : list string) : World state :=
  mkWorld {| rows := rows; page_size := page_size; schedule := schedule |} [] [] stdin.

End MemTable.


(** ** What the service does, as relations on its state *)

Section Service.
Context {S : Type} {T : Table S} {B : Builtins}.

(** [pages flt start s rs s']: asked to scan from [start] in state [s], and
    then from each continuation key it hands out, the service answers with
    the pages [rs], the last one without a continuation key, and ends in
    state [s'].  A table whose scan takes K pages has such a run with
    K pages. *)
Inductive pages (flt : option string) : option item -> S -> list ScanResponse -> S -> Prop :=
| pages_last : forall start s r s',
    scan {| FilterExpression := flt; ExclusiveStartKey := start |} s = (Reply r, s') ->
    LastEvaluatedKey r = None ->
    pages flt start s [r] s'
| pages_next : forall start s r k s' rs s'',
    scan {| FilterExpression := flt; ExclusiveStartKey := start |} s = (Reply r, s') ->
    LastEvaluatedKey r = Some k ->
    pages flt (Some k) s' rs s'' ->
    pages flt start s (r :: rs) s''.

(** [pages_fault flt start s rs e s']: the same run, cut short after the
    pages [rs] by a request that raises [e]. *)
Inductive pages_fault (flt : option string) : option item -> S -> list ScanResponse -> raised -> S -> Prop :=
| fault_now : forall start s e s',
    scan {| FilterExpression := flt; ExclusiveStartKey := start |} s = (Fault e, s') ->
    pages_fault flt start s [] e s'
| fault_later : forall start s r k s' rs e s'',
    scan {| FilterExpression := flt; ExclusiveStartKey := start |} s = (Reply r, s') ->
    LastEvaluatedKey r = Some k ->
    pages_fault flt (Some k) s' rs e s'' ->
    pages_fault flt start s (r :: rs) e s''.

(** The scan requests that fetch the pages [rs], one per page. *)
Fixpoint requests_of (flt : option string) (start : option item)
    (rs : list ScanResponse) : list Call :=
  match rs with
  | [] => []
  | r :: rs' =>
      CScan {| FilterExpression := flt; ExclusiveStartKey := start |}
        :: requests_of flt (LastEvaluatedKey r) rs'
  end.

(** The same, with the request that raised at the end. *)
Fixpoint fault_requests (flt : option string) (start : option item)
    (rs : list ScanResponse) : list Call :=
  match rs with
  | [] => [CScan {| FilterExpression := flt; ExclusiveStartKey := start |}]
  | r :: rs' =>
      CScan {| FilterExpression := flt; ExclusiveStartKey := start |}
        :: fault_requests flt (LastEvaluatedKey r) rs'
  end.

(** The items of the pages, in order of arrival. *)
Definition all_items (rs : list ScanResponse) : list item :=
  List.concat (map get_Items rs).

(** The request [update_movie_rating] sends. *)
Definition update_request (year : value) (title : string) (r : Decimal) : UpdateRequest :=
  {| upd_Key := {| key_year := year; key_title := title |};
     UpdateExpression := "set info.rating = :r";
     ExpressionAttributeValues := [(":r", r)];
     upd_ReturnValues := "UPDATED_NEW" |}.

(** The request [delete_movie] sends. *)
Definition delete_request (year : value) (title : string) : DeleteRequest :=
  {| del_Key := {| key_year := year; key_title := title |};
     del_ReturnValues := "ALL_OLD" |}.

(** What became of one matched record in the update loop. *)
Inductive attempt : Type :=
| Skipped
| Failed (code message : string)
| Updated (response : Response).

(** [updates title rating items s as s']: what the service does with the
    update of each of [items] in turn, from state [s] to [s']: a record
    whose year is falsy is skipped, the others are updated under their own
    year, each update answered or refused with a ClientError. *)
Inductive updates (title : string) (new_rating : float) : list item -> S -> list attempt -> S -> Prop :=
| updates_nil : forall s, updates title new_rating [] s [] s
| updates_skip : forall it rest s ats s',
    truthy (get it "year") = false ->
    updates title new_rating rest s ats s' ->
    updates title new_rating (it :: rest) s (Skipped :: ats) s'
| updates_fail : forall it rest s r code message s1 ats s',
    truthy (get it "year") = true ->
    Decimal_of_str (str_of_float new_rating) = Some r ->
    update_item (update_request (get it "year") title r) s = (Fault (ClientError code message), s1) ->
    updates title new_rating rest s1 ats s' ->
    updates title new_rating (it :: rest) s (Failed code message :: ats) s'
| updates_ok : forall it rest s r response s1 ats s',
    truthy (get it "year") = true ->
    Decimal_of_str (str_of_float new_rating) = Some r ->
    update_item (update_request (get it "year") title r) s = (Reply response, s1) ->
    updates title new_rating rest s1 ats s' ->
    updates title new_rating (it :: rest) s (Updated response :: ats) s'.

(** The responses of the updates that went through. *)
Fixpoint successes (ats : list attempt) : list Response :=
  match ats with
  | [] => []
  | Updated response :: ats' => response :: successes ats'
  | _ :: ats' => successes ats'
  end.

(** The world after [out] was printed and the input moved on to [rest]. *)
Definition typed (out : list Msg) (rest : list string) (w : World S) : World S :=
  mkWorld (store w) (calls w) (stdout w ++ out) rest.

(** The world with another service state and [cs] more requests logged. *)
Definition served (s' : S) (cs : list Call) (w : World S) : World S :=
  mkWorld s' (calls w ++ cs) (stdout w) (stdin w).

(** A computation that only prints: the service, the request log and the
    input are as before, whatever the outcome. *)
Definition quiet {A : Type} (c : M S A) : Prop :=
  forall w, store (snd (c w)) = store w /\ calls (snd (c w)) = calls w
            /\ stdin (snd (c w)) = stdin w.

(** The update requests the loop sends for [items]: one per record whose
    year is truthy, under that record's year. *)
Definition update_calls (title : string) (new_rating : float) (items : list item) : list Call :=
  flat_map
    (fun it =>
       if truthy (get it "year") then
         match Decimal_of_str (str_of_float new_rating) with
         | Some r => [CUpdate (update_request (get it "year") title r)]
         | None => []
         end
       else [])
    items.

(** A computation that sends nothing to the service; it may print and
    read. *)
Definition harmless {A : Type} (c : M S A) : Prop :=
  forall w, store (snd (c w)) = store w /\ calls (snd (c w)) = calls w.

(** Records that [json.dumps] can write with the [DecimalEncoder]. *)
Definition encodable (records : list item) : Prop :=
  forall record, In record records -> encode (VMap record) <> None.

(** The three situations in which the update by title has nothing to
    return. *)
Definition no_match (fuel : nat) (title : string) (w : World S) : Prop :=
  exists rs s', pages (Some title) None (store w) rs s'
                /\ all_items rs = [] /\ List.length rs <= Datatypes.S fuel.

Definition scan_faults (fuel : nat) (title : string) (w : World S) : Prop :=
  exists rs code message s',
    pages_fault (Some title) None (store w) rs (ClientError code message) s'
    /\ List.length rs <= fuel.

Definition no_update_lands (fuel : nat) (title : string) (new_rating : float)
    (w : World S) : Prop :=
  exists rs s' ats s'',
    pages (Some title) None (store w) rs s' /\ List.length rs <= Datatypes.S fuel
    /\ all_items rs <> []
    /\ updates title new_rating (all_items rs) s' ats s''
    /\ successes ats = [].

End Service.

(** What [update_movie_rating] prints when the service refuses the update
    with a ClientError. *)
Definition refusal (title : string) (year : value) (code message : string) : Msg :=
  if String.eqb code "ConditionalCheckFailedException"
  then MsgUpdateNotFound title year
  else MsgUpdateError message.

(** Requests by kind. *)
Definition is_scan (c : Call) : bool :=
  match c with
  | CScan _ => true
  | _ => false
  end.

(** Messages by kind, to look for them in what was printed. *)
Definition is_asked_year (m : Msg) : bool :=
  match m with
  | Asked PromptYear => true
  | _ => false
  end.

Definition is_invalid_year (m : Msg) : bool :=
  match m with
  | MsgInvalidYear => true
  | _ => false
  end.

(** What was printed after the first message that [p] accepts. *)
Fixpoint after (p : Msg -> bool) (l : list Msg) : list Msg :=
  match l with
  | [] => []
  | m :: l' => if p m then l' else after p l'
  end.

(** The value at a path of keys in a JSON object. *)
Fixpoint json_at (path : list string) (j : json) : option json :=
  match path with
  | [] => Some j
  | k :: path' =>
      match j with
      | JObj m =>
          match dict_get m k with
          | Some j' => json_at path' j'
          | None => None
          end
      | _ => None
      end
  end.

(** The JSON documents printed, in order. *)
Fixpoint printed_json (l : list Msg) : list json :=
  match l with
  | [] => []
  | MsgRecordJson j :: l' => j :: printed_json l'
  | _ :: l' => printed_json l'
  end.


(** ** Tables and sessions to run the code on *)

Module Examples.

Definition T : Table MemTable.state := MemTable.table.
Definition B : Builtins := CPython.builtins.

(** 7.5, 5 and 8.5 as Decimals; 9.0 and 8.5 as floats. *)
Definition d7_5 : Decimal := Dec false 75 (-1).
Definition d5 : Decimal := Dec false 5 0.
Definition d8_5 : Decimal := Dec false 85 (-1).
Definition f9_0 : float := FFin false 5066549580791808 (-49).
Definition f8_5 : float := FFin false 4785074604081152 (-49).

Definition matrix : item := MemTable.movie 1999 "The Matrix" d7_5.

(** Three records titled X, and the table that holds them after The Matrix. *)
Definition three_x : list item :=
  [MemTable.movie 2001 "X" d5; MemTable.movie 2002 "X" d5; MemTable.movie 2003 "X" d5].

Definition four_rows : list item := matrix :: three_x.

(** Three records titled X with distinct years, one of them the year 0. *)
Definition from_year_zero : list item :=
  [MemTable.movie 0 "X" d5; MemTable.movie 1 "X" d5; MemTable.movie 2 "X" d5].

Definition not_found_fault : exn :=
  ClientError "ConditionalCheckFailedException" "The conditional request failed".

Definition throttled : exn :=
  ClientError "ProvisionedThroughputExceededException" "Rate exceeded".

(** The two pages of [four_rows] at three rows a page. *)
Definition page1 : ScanResponse :=
  {| Items := Some [matrix; MemTable.movie 2001 "X" d5; MemTable.movie 2002 "X" d5];
     LastEvaluatedKey := Some (MemTable.key_of (MemTable.movie 2002 "X" d5)) |}.

Definition page2 : ScanResponse :=
  {| Items := Some [MemTable.movie 2003 "X" d5]; LastEvaluatedKey := None |}.

End Examples.

(** ** More vocabulary for the properties *)

(** What the page [r] holds: the list under ['Items'], and nothing when
    the response has no such key. *)
Inductive holds : ScanResponse -> list item -> Prop :=
| holds_items : forall r l, Items r = Some l -> holds r l
| holds_nothing : forall r, Items r = None -> holds r [].

(** Two records under one primary key, (year, title). *)
Definition same_key (a b : item) : bool :=
  py_eq (get a "year") (get b "year") && py_eq (get a "title") (get b "title").

(** Key uniqueness in a table: every record is found under its own key,
    and no record under the key of a later one. *)
Fixpoint unique_keys (l : list item) : bool :=
  match l with
  | [] => true
  | r :: l' =>
      same_key r r && forallb (fun r' => negb (same_key r r')) l' && unique_keys l'
  end.

(** The pages that a scan of [n] rows takes at [p] rows a page (0: no
    limit): [n / p] rounded up, and one page for no rows. *)
Definition page_count (n p : nat) : nat :=
  match p with
  | O => 1
  | _ => Nat.max 1 ((n + p - 1) / p)
  end.

(** Requests about one title: a scan filtered on it, or an update of a key
    that holds it. *)
Definition about_title (title : string) (c : Call) : bool :=
  match c with
  | CScan req =>
      match FilterExpression req with
      | Some t => String.eqb t title
      | None => false
      end
  | CUpdate req => String.eqb (key_title (upd_Key req)) title
  | CDelete _ => false
  end.

(** What [display_records] prints between its header and footer for
    records whose JSON is [js], numbered from [i]. *)
Fixpoint shown (i : nat) (js : list json) : list Msg :=
  match js with
  | [] => []
  | j :: js' => MsgRecordHeader i :: MsgRecordJson j :: shown (Datatypes.S i) js'
  end.

(** Values with no Binary and no set anywhere inside. *)
Fixpoint serializable (v : value) : bool :=
  match v with
  | VBytes _ => false
  | VSet _ => false
  | VList l => forallb serializable l
  | VMap m => forallb (fun kv => serializable (snd kv)) m
  | _ => true
  end.

(** Whether [json.dumps] with the [DecimalEncoder] writes a value. *)
Definition encodes {B : Builtins} (o : value) : bool :=
  match encode o with
  | Some _ => true
  | None => false
  end.

(** The six lines of the menu. *)
Definition menu_lines : list Msg :=
  [MsgMenuHeader; MsgMenuOption 1; MsgMenuOption 2; MsgMenuOption 3;
   MsgMenuOption 4; MsgMenuOption 5].

(** What the rating loop prints for the lines [bad] it turns down. *)
Definition turned_down (bad : list string) : list Msg :=
  flat_map (fun _ => [Asked PromptRating; MsgInvalidRating]) bad.

(** More tables and sessions. *)
Module Sessions.

(** A service that cannot be reached: every operation raises. *)
Definition no_region : exn := OtherError "NoRegionError".

Definition unreachable : Table unit := {|
  connect := fun _ _ s => (Fault no_region, s);
  scan := fun _ s => (Fault no_region, s);
  update_item := fun _ s => (Fault no_region, s);
  delete_item := fun _ s => (Fault no_region, s)
|}.

Definition endpoint_down : exn := OtherError "EndpointConnectionError".

(** A service reached while the user presses Ctrl-C: the handle is set
    up, and every request is cut short by KeyboardInterrupt. *)
Definition interrupted : Table unit := {|
  connect := fun _ _ s => (Reply tt, s);
  scan := fun _ s => (Fault KeyboardInterrupt, s);
  update_item := fun _ s => (Fault KeyboardInterrupt, s);
  delete_item := fun _ s => (Fault KeyboardInterrupt, s)
|}.

(** A record with a string set among its attributes. *)
Definition tagged : item :=
  [("year", VDec (Dec false 1995 0)); ("title", VStr "Heat");
   ("tags", VSet [VStr "crime"; VStr "drama"])].

(** The JSON of [Examples.matrix] under the CPython conversions. *)
Definition matrix_json : json :=
  JObj [("year", JFloat (FFin false 8791694975696896 (-42)));
        ("title", JStr "The Matrix");
        ("info", JObj [("rating", JFloat (FFin false 8444249301319680 (-50)))])].

(** The JSON of a record under the CPython conversions. *)
Definition json_of (r : item) : json :=
  match @encode CPython.builtins (VMap r) with
  | Some j => j
  | None => JNull
  end.

Definition three_x_json : list json := Eval vm_compute in map json_of Examples.three_x.

Definition four_rows_json : list json := Eval vm_compute in map json_of Examples.four_rows.

(** The one page of [Examples.four_rows] under the filter on X. *)
Definition page_x : ScanResponse :=
  {| Items := Some Examples.three_x; LastEvaluatedKey := None |}.

(** The state of the table in memory with these rows and schedule. *)
Definition table_of (rows : list item) (schedule : list (option exn)) : MemTable.state :=
  {| MemTable.rows := rows; MemTable.page_size := 0; MemTable.schedule := schedule |}.

End Sessions.

(** ** Proof steps that recur *)

(** A run that ended in the outcome and world at hand, with the service
    and the request log as they were. *)
Ltac ended_here :=
  let E := fresh "E" in
  intros E; injection E as <- <-; cbn; repeat split; auto.

(** The same, for a run that chose no year. *)
Ltac ended_without_year :=
  ended_here;
  let y := fresh "y" in
  let Hy := fresh "Hy" in
  intros y Hy; discriminate Hy.

Create HintDb quiet.


(** * Properties *)

Unset Implicit Arguments.

(** ** Scanning *)

Section ScanFacts.
Context {S : Type} {T : Table S} {B : Builtins}.

Lemma bind_Ret {A C : Type} {c : M S A} (k : A -> M S C) {w a w'} :
  c w = (Ret a, w') -> bind c k w = k a w'.
Proof. intros H. unfold bind. rewrite H. reflexivity. Qed.

Lemma bind_Raise {A C : Type} {c : M S A} (k : A -> M S C) {w e w'} :
  c w = (Raise e, w') -> bind c k w = (Raise e, w').
Proof. intros H. unfold bind. rewrite H. reflexivity. Qed.

Lemma try_Ret {A : Type} {c : M S A} h {w a w'} :
  c w = (Ret a, w') -> try_except c h w = (Ret a, w').
Proof. intros H. unfold try_except. rewrite H. reflexivity. Qed.

Lemma try_Raise {A : Type} {c : M S A} h {w e w'} :
  c w = (Raise e, w') ->
  try_except c h w = match h e with Some k => k w' | None => (Raise e, w') end.
Proof. intros H. unfold try_except. rewrite H. reflexivity. Qed.

Lemma table_scan_Reply {flt start w r s'} :
  scan {| FilterExpression := flt; ExclusiveStartKey := start |} (store w) = (Reply r, s') ->
  table_scan flt start w
  = (Ret r, served s' [CScan {| FilterExpression := flt; ExclusiveStartKey := start |}] w).
Proof. intros H. unfold table_scan, request. rewrite H. reflexivity. Qed.

Lemma table_scan_Fault {flt start w e s'} :
  scan {| FilterExpression := flt; ExclusiveStartKey := start |} (store w) = (Fault e, s') ->
  table_scan flt start w
  = (Raise e, served s' [CScan {| FilterExpression := flt; ExclusiveStartKey := start |}] w).
Proof. intros H. unfold table_scan, request. rewrite H. reflexivity. Qed.

Lemma scan_pages_done fuel flt r items :
  LastEvaluatedKey r = None -> scan_pages fuel flt r items = ret items.
Proof. intros H. destruct fuel; simpl; rewrite H; reflexivity. Qed.

Lemma served_served s1 c1 s2 c2 (w : World S) :
  served s2 c2 (served s1 c1 w) = served s2 (c1 ++ c2) w.
Proof. unfold served. simpl. rewrite <- app_assoc. reflexivity. Qed.

Lemma scan_pages_pages {flt k s rs s'} :
  pages flt k s rs s' ->
  forall fuel r items w key,
    k = Some key -> LastEvaluatedKey r = Some key -> store w = s ->
    List.length rs <= fuel ->
    scan_pages fuel flt r items w
    = (Ret (items ++ all_items rs), served s' (requests_of flt k rs) w).
Proof.
  induction 1 as [start s r1 s' Hscan Hlast | start s r1 k1 s' rs s'' Hscan Hkey Hrest IH];
    intros fuel r items w key -> Hr Hs Hlen; subst s;
    (destruct fuel as [|fuel]; [simpl in Hlen; lia|]);
    simpl; rewrite Hr;
    rewrite (bind_Ret _ (table_scan_Reply Hscan)).
  - rewrite scan_pages_done by assumption.
    unfold all_items. simpl. rewrite app_nil_r. reflexivity.
  - rewrite (IH fuel r1 (items ++ get_Items r1) (served s' _ w) k1 eq_refl Hkey eq_refl)
      by (simpl in Hlen; lia).
    rewrite served_served. rewrite Hkey. unfold all_items. simpl.
    rewrite <- app_assoc. reflexivity.
Qed.

Lemma scan_all_pages fuel flt (w : World S) rs s' :
  pages flt None (store w) rs s' ->
  List.length rs <= Datatypes.S fuel ->
  scan_all fuel flt w = (Ret (all_items rs), served s' (requests_of flt None rs) w).
Proof.
  intros Hp Hlen. unfold scan_all.
  inversion Hp as [start s r s1 Hscan Hlast | start s r k s1 rs' s2 Hscan Hkey Hrest]; subst.
  - rewrite (bind_Ret _ (table_scan_Reply Hscan)).
    rewrite scan_pages_done by assumption.
    unfold all_items. simpl. rewrite app_nil_r. reflexivity.
  - rewrite (bind_Ret _ (table_scan_Reply Hscan)).
    rewrite (scan_pages_pages Hrest fuel r (get_Items r) (served s1 _ w) k eq_refl Hkey eq_refl)
      by (simpl in Hlen; lia).
    rewrite served_served. cbn [requests_of]. rewrite Hkey. reflexivity.
Qed.

Lemma scan_pages_fault {flt k s rs e s'} :
  pages_fault flt k s rs e s' ->
  forall fuel r items w key,
    k = Some key -> LastEvaluatedKey r = Some key -> store w = s ->
    List.length rs < fuel ->
    scan_pages fuel flt r items w
    = (Raise e, served s' (fault_requests flt k rs) w).
Proof.
  induction 1 as [start s e s' Hscan | start s r1 k1 s' rs e s'' Hscan Hkey Hrest IH];
    intros fuel r items w key -> Hr Hs Hlen; subst s;
    (destruct fuel as [|fuel]; [simpl in Hlen; lia|]);
    simpl; rewrite Hr.
  - rewrite (bind_Raise _ (table_scan_Fault Hscan)). reflexivity.
  - rewrite (bind_Ret _ (table_scan_Reply Hscan)).
    rewrite (IH fuel r1 (items ++ get_Items r1) (served s' _ w) k1 eq_refl Hkey eq_refl)
      by (simpl in Hlen; lia).
    rewrite served_served. rewrite Hkey. reflexivity.
Qed.

Lemma scan_all_fault fuel flt (w : World S) rs e s' :
  pages_fault flt None (store w) rs e s' ->
  List.length rs <= fuel ->
  scan_all fuel flt w = (Raise e, served s' (fault_requests flt None rs) w).
Proof.
  intros Hp Hlen. unfold scan_all.
  inversion Hp as [start s e' s1 Hscan | start s r k s1 rs' e' s2 Hscan Hkey Hrest]; subst.
  - rewrite (bind_Raise _ (table_scan_Fault Hscan)). reflexivity.
  - rewrite (bind_Ret _ (table_scan_Reply Hscan)).
    rewrite (scan_pages_fault Hrest fuel r (get_Items r) (served s1 _ w) k eq_refl Hkey eq_refl)
      by (simpl in Hlen; lia).
    rewrite served_served. cbn [fault_requests]. rewrite Hkey. reflexivity.
Qed.

Lemma requests_of_length flt start rs :
  List.length (requests_of flt start rs) = List.length rs.
Proof. revert start. induction rs as [|r rs IH]; intros start; simpl; [|rewrite IH]; reflexivity. Qed.

End ScanFacts.

(** ** The handler *)

Section HandlerFacts.
Context {S : Type} {T : Table S} {B : Builtins}.

Lemma get_all_records_found fuel (w : World S) rs s' :
  pages None None (store w) rs s' ->
  List.length rs <= Datatypes.S fuel ->
  get_all_records fuel w
  = (Ret (Some (all_items rs)),
     typed [MsgScanning; MsgFoundRecords (List.length (all_items rs))] (stdin w)
       (served s' (requests_of None None rs) w)).
Proof.
  intros Hp Hlen. unfold get_all_records. apply try_Ret.
  unfold bind at 1. cbn [print].
  erewrite bind_Ret by (apply scan_all_pages; [exact Hp | exact Hlen]).
  unfold bind, print, ret, typed, served. cbn.
  rewrite <- app_assoc. reflexivity.
Qed.

Lemma get_all_records_refused fuel (w : World S) rs code message s' :
  pages_fault None None (store w) rs (ClientError code message) s' ->
  List.length rs <= fuel ->
  get_all_records fuel w
  = (Ret None,
     typed [MsgScanning; MsgError message] (stdin w)
       (served s' (fault_requests None None rs) w)).
Proof.
  intros Hp Hlen. unfold get_all_records.
  erewrite try_Raise.
  2:{ unfold bind at 1. cbn [print].
      apply bind_Raise. apply scan_all_fault; [exact Hp | exact Hlen]. }
  cbn. unfold typed, served. cbn. rewrite <- app_assoc. reflexivity.
Qed.

Lemma update_movie_rating_Reply {year title new_rating} {w : World S} {r response s'} :
  Decimal_of_str (str_of_float new_rating) = Some r ->
  update_item (update_request year title r) (store w) = (Reply response, s') ->
  update_movie_rating year title new_rating w
  = (Ret (Some response),
     typed [MsgUpdating title year new_rating; MsgUpdateSuccessful] (stdin w)
       (served s' [CUpdate (update_request year title r)] w)).
Proof.
  intros Hd Hu.
  unfold update_movie_rating, try_except, bind, print, Decimal_str, request, ret.
  cbn. rewrite Hd. cbn.
  change {| upd_Key := {| key_year := year; key_title := title |};
            UpdateExpression := "set info.rating = :r";
            ExpressionAttributeValues := [(":r", r)];
            upd_ReturnValues := "UPDATED_NEW" |}
    with (update_request year title r).
  rewrite Hu. cbn. unfold typed, served. cbn. rewrite <- app_assoc. reflexivity.
Qed.

Lemma update_movie_rating_ClientError {year title new_rating} {w : World S} {r code message s'} :
  Decimal_of_str (str_of_float new_rating) = Some r ->
  update_item (update_request year title r) (store w) = (Fault (ClientError code message), s') ->
  update_movie_rating year title new_rating w
  = (Ret None,
     typed [MsgUpdating title year new_rating; refusal title year code message] (stdin w)
       (served s' [CUpdate (update_request year title r)] w)).
Proof.
  intros Hd Hu.
  unfold update_movie_rating, try_except, bind, print, Decimal_str, request, ret.
  cbn. rewrite Hd. cbn.
  change {| upd_Key := {| key_year := year; key_title := title |};
            UpdateExpression := "set info.rating = :r";
            ExpressionAttributeValues := [(":r", r)];
            upd_ReturnValues := "UPDATED_NEW" |}
    with (update_request year title r).
  rewrite Hu. cbn. unfold refusal, typed, served.
  destruct (String.eqb code "ConditionalCheckFailedException"); cbn;
    rewrite <- app_assoc; reflexivity.
Qed.

(** C3, as amended.  When the service refuses the update with a ClientError,
    [update_movie_rating] returns None whatever the error code.  A failed
    condition check is told from any other refusal by what is printed, the
    not-found message in place of the generic one, and by nothing in the
    value returned; the generic message is never printed for it. *)
Theorem update_movie_rating_refused :
  forall (year : value) (title : string) (new_rating : float) (w : World S)
         (r : Decimal) (code message : string) (s' : S),
    Decimal_of_str (str_of_float new_rating) = Some r ->
    update_item (update_request year title r) (store w) = (Fault (ClientError code message), s') ->
    fst (update_movie_rating year title new_rating w) = Ret None
    /\ stdout (snd (update_movie_rating year title new_rating w))
       = stdout w ++ [MsgUpdating title year new_rating;
                      if String.eqb code "ConditionalCheckFailedException"
                      then MsgUpdateNotFound title year
                      else MsgUpdateError message]
    /\ (code = "ConditionalCheckFailedException" ->
        forall m, In (MsgUpdateError m) (stdout (snd (update_movie_rating year title new_rating w))) ->
                  In (MsgUpdateError m) (stdout w)).
Proof.
  intros year title new_rating w r code message s' Hd Hu.
  rewrite (update_movie_rating_ClientError Hd Hu).
  cbn. split; [reflexivity|]. split; [reflexivity|].
  intros -> m Hin. cbn in Hin.
  apply in_app_or in Hin. destruct Hin as [Hin|Hin]; [exact Hin|].
  cbn in Hin. destruct Hin as [Hin|[Hin|[]]]; discriminate Hin.
Qed.


Lemma response_truthy_true (r : Response) : response_truthy r = true.
Proof. unfold response_truthy, response_keys. destruct (Attributes r); reflexivity. Qed.

Lemma update_each_updates {title new_rating items s ats s'} :
  updates title new_rating items s ats s' ->
  forall acc (w : World S),
    store w = s ->
    exists out,
      update_each title new_rating items acc w
      = (Ret (acc ++ successes ats),
         typed out (stdin w) (served s' (update_calls title new_rating items) w)).
Proof.
  induction 1 as [s | it rest s ats s' Hy Hrest IH
                  | it rest s r code message s1 ats s' Hy Hd Hu Hrest IH
                  | it rest s r response s1 ats s' Hy Hd Hu Hrest IH];
    intros acc w Hs; subst s.
  - exists []. cbn. unfold ret, typed, served. cbn.
    rewrite !app_nil_r. destruct w; reflexivity.
  - cbn [update_each]. rewrite Hy.
    unfold bind at 1. cbn [print].
    destruct (IH acc (typed [MsgWarnYearMissing title] (stdin w) w) eq_refl) as [out E].
    exists (MsgWarnYearMissing title :: out).
    unfold typed in E at 1. cbn in E. unfold typed in E at 1. rewrite E.
    unfold update_calls; cbn [flat_map]. rewrite Hy.
    unfold typed, served. cbn. rewrite <- app_assoc. reflexivity.
  - cbn [update_each]. rewrite Hy.
    rewrite (bind_Ret _ (update_movie_rating_ClientError Hd Hu)).
    destruct (IH acc (typed [MsgUpdating title (get it "year") new_rating;
                             refusal title (get it "year") code message] (stdin w)
                        (served s1 [CUpdate (update_request (get it "year") title r)] w))
                eq_refl) as [out E].
    exists ([MsgUpdating title (get it "year") new_rating;
             refusal title (get it "year") code message] ++ out).
    rewrite E.
    unfold update_calls; cbn [flat_map]. rewrite Hy, Hd.
    unfold typed, served. cbn. rewrite <- !app_assoc. reflexivity.
  - cbn [update_each]. rewrite Hy.
    rewrite (bind_Ret _ (update_movie_rating_Reply Hd Hu)).
    rewrite response_truthy_true.
    destruct (IH (acc ++ [response])
                (typed [MsgUpdating title (get it "year") new_rating; MsgUpdateSuccessful]
                   (stdin w)
                   (served s1 [CUpdate (update_request (get it "year") title r)] w))
                eq_refl) as [out E].
    exists ([MsgUpdating title (get it "year") new_rating; MsgUpdateSuccessful] ++ out).
    rewrite E.
    unfold update_calls; cbn [flat_map successes]. rewrite Hy, Hd.
    unfold typed, served. cbn. rewrite <- !app_assoc. reflexivity.
Qed.

Lemma nonempty_false {A : Type} (l : list A) : nonempty l = false <-> l = [].
Proof. destruct l; cbn; split; intros H; try reflexivity; discriminate H. Qed.

Lemma update_by_title_no_match fuel title new_rating (w : World S) :
  no_match fuel title w ->
  fst (update_movie_rating_by_title fuel title new_rating w) = Ret None.
Proof.
  intros (rs & s' & Hp & Hnone & Hlen).
  unfold update_movie_rating_by_title.
  unfold bind at 1. cbn [print].
  erewrite try_Ret; [reflexivity|].
  erewrite bind_Ret by (apply scan_all_pages; [exact Hp | exact Hlen]).
  rewrite Hnone. reflexivity.
Qed.

Lemma update_by_title_scan_faults fuel title new_rating (w : World S) :
  scan_faults fuel title w ->
  fst (update_movie_rating_by_title fuel title new_rating w) = Ret None.
Proof.
  intros (rs & code & message & s' & Hp & Hlen).
  unfold update_movie_rating_by_title.
  unfold bind at 1. cbn [print].
  erewrite try_Raise
    by (apply bind_Raise; apply scan_all_fault; [exact Hp | exact Hlen]).
  reflexivity.
Qed.

Lemma update_by_title_updates fuel title new_rating (w : World S) rs s1 ats s2 :
  pages (Some title) None (store w) rs s1 ->
  List.length rs <= Datatypes.S fuel ->
  all_items rs <> [] ->
  updates title new_rating (all_items rs) s1 ats s2 ->
  exists out,
    update_movie_rating_by_title fuel title new_rating w
    = (Ret (if nonempty (successes ats) then Some (successes ats) else None),
       typed out (stdin w)
         (served s2 (requests_of (Some title) None rs
                     ++ update_calls title new_rating (all_items rs)) w)).
Proof.
  intros Hp Hlen Hsome Hup.
  unfold update_movie_rating_by_title.
  unfold bind at 1. cbn [print].
  set (w0 := mkWorld _ _ _ _).
  destruct (update_each_updates Hup []
              (typed [MsgFoundToUpdate (List.length (all_items rs)) title] (stdin w)
                 (served s1 (requests_of (Some title) None rs) w0)) eq_refl)
    as [out E].
  assert (Hne : nonempty (all_items rs) = true).
  { destruct (all_items rs); [contradiction Hsome; reflexivity | reflexivity]. }
  destruct (nonempty (successes ats)) eqn:Hsucc.
  - exists ([MsgAttemptUpdate title new_rating;
             MsgFoundToUpdate (List.length (all_items rs)) title] ++ out
            ++ [MsgUpdatedCount (List.length (successes ats)) title]).
    erewrite try_Ret.
    2:{ erewrite bind_Ret by (apply scan_all_pages; [exact Hp | exact Hlen]).
        rewrite Hne. unfold bind at 1. cbn [print].
        erewrite bind_Ret by (exact E).
        cbn [app]. rewrite Hsucc. unfold bind, print, ret. cbn. reflexivity. }
    subst w0. unfold typed, served. cbn. rewrite <- !app_assoc. reflexivity.
  - exists ([MsgAttemptUpdate title new_rating;
             MsgFoundToUpdate (List.length (all_items rs)) title] ++ out
            ++ [MsgNoUpdatesApplied title]).
    erewrite try_Ret.
    2:{ erewrite bind_Ret by (apply scan_all_pages; [exact Hp | exact Hlen]).
        rewrite Hne. unfold bind at 1. cbn [print].
        erewrite bind_Ret by (exact E).
        cbn [app]. rewrite Hsucc. unfold bind, print, ret. cbn. reflexivity. }
    subst w0. unfold typed, served. cbn. rewrite <- !app_assoc. reflexivity.
Qed.

Lemma update_by_title_nothing_lands fuel title new_rating (w : World S) :
  no_update_lands fuel title new_rating w ->
  fst (update_movie_rating_by_title fuel title new_rating w) = Ret None.
Proof.
  intros (rs & s1 & ats & s2 & Hp & Hlen & Hsome & Hup & Hnone).
  destruct (update_by_title_updates fuel title new_rating w rs s1 ats s2 Hp Hlen Hsome Hup)
    as (out & E).
  rewrite E, Hnone. reflexivity.
Qed.

(** C10. [update_movie_rating_by_title] returns None when no record has the
    title, when a scan raises a ClientError, and when records match but no
    update goes through (each is refused or skipped): one value for three
    situations. *)
Theorem update_by_title_None_thrice :
  forall (fuel : nat) (title : string) (new_rating : float) (w : World S),
    no_match fuel title w \/ scan_faults fuel title w
    \/ no_update_lands fuel title new_rating w ->
    fst (update_movie_rating_by_title fuel title new_rating w) = Ret None.
Proof.
  intros fuel title new_rating w [H | [H | H]].
  - apply update_by_title_no_match; exact H.
  - apply update_by_title_scan_faults; exact H.
  - apply update_by_title_nothing_lands; exact H.
Qed.


Lemma find_movies_by_title_pages fuel title (w : World S) rs s' :
  pages (Some title) None (store w) rs s' ->
  List.length rs <= Datatypes.S fuel ->
  find_movies_by_title fuel title w
  = (Ret (all_items rs),
     typed [MsgSearching title;
            if nonempty (all_items rs)
            then MsgFoundMovies (List.length (all_items rs)) title
            else MsgNoMovieFound title] (stdin w)
       (served s' (requests_of (Some title) None rs) w)).
Proof.
  intros Hp Hlen. unfold find_movies_by_title.
  unfold bind at 1. cbn [print].
  apply try_Ret.
  erewrite bind_Ret by (apply scan_all_pages; [exact Hp | exact Hlen]).
  unfold typed, served.
  destruct (nonempty (all_items rs)); unfold bind, print, ret; cbn;
    rewrite <- app_assoc; reflexivity.
Qed.

(** C4, as amended.  [find_movies_by_title] returns the empty list when no
    record has the title, and it returns the empty list as well when a
    scan raises a ClientError; the two differ in the message printed
    only. *)
Theorem find_movies_by_title_empty :
  forall (fuel : nat) (title : string) (w : World S),
    (forall rs s',
        pages (Some title) None (store w) rs s' ->
        List.length rs <= Datatypes.S fuel ->
        all_items rs = [] ->
        find_movies_by_title fuel title w
        = (Ret [],
           typed [MsgSearching title; MsgNoMovieFound title] (stdin w)
             (served s' (requests_of (Some title) None rs) w)))
    /\ (forall rs code message s',
        pages_fault (Some title) None (store w) rs (ClientError code message) s' ->
        List.length rs <= fuel ->
        find_movies_by_title fuel title w
        = (Ret [],
           typed [MsgSearching title; MsgSearchError message] (stdin w)
             (served s' (fault_requests (Some title) None rs) w))).
Proof.
  intros fuel title w. split.
  - intros rs s' Hp Hlen Hnone.
    rewrite (find_movies_by_title_pages fuel title w rs s' Hp Hlen).
    rewrite Hnone. reflexivity.
  - intros rs code message s' Hp Hlen.
    unfold find_movies_by_title.
    unfold bind at 1. cbn [print].
    erewrite try_Raise
      by (apply bind_Raise; apply scan_all_fault; [exact Hp | exact Hlen]).
    cbn. unfold typed, served. cbn. rewrite <- app_assoc. reflexivity.
Qed.

(** C7. [delete_movie] sends one delete request for the key, asking for the
    old item back (ALL_OLD).  When the answer carries no attributes, no
    record was at the key: it prints the not-found message and returns
    the response all the same.  It returns None exactly when the request
    raised a ClientError. *)
Theorem delete_movie_not_found_is_no_error :
  forall (year : value) (title : string) (w : World S),
    calls (snd (delete_movie year title w)) = calls w ++ [CDelete (delete_request year title)]
    /\ del_ReturnValues (delete_request year title) = "ALL_OLD"
    /\ (forall response s',
          delete_item (delete_request year title) (store w) = (Reply response, s') ->
          Attributes response = None ->
          delete_movie year title w
          = (Ret (Some response),
             typed [MsgDeleting title year; MsgDeleteNotFound title year] (stdin w)
               (served s' [CDelete (delete_request year title)] w)))
    /\ (fst (delete_movie year title w) = Ret None
        <-> exists code message,
             fst (delete_item (delete_request year title) (store w))
             = Fault (ClientError code message)).
Proof.
  intros year title w.
  unfold delete_movie, try_except, bind, print, request, ret.
  cbn.
  change {| del_Key := {| key_year := year; key_title := title |};
            del_ReturnValues := "ALL_OLD" |}
    with (delete_request year title).
  destruct (delete_item (delete_request year title) (store w)) as [[response|e] s1] eqn:Hd.
  - cbn. destruct (Attributes response) eqn:Ha; cbn.
    + split; [reflexivity|]. split; [reflexivity|]. split.
      * intros r' s' Heq Hnone. injection Heq as <- <-. rewrite Ha in Hnone. discriminate.
      * split; [discriminate | intros (c & m & H); discriminate H].
    + split; [reflexivity|]. split; [reflexivity|]. split.
      * intros r' s' Heq _. injection Heq as <- <-.
        unfold typed, served. cbn. rewrite <- app_assoc. reflexivity.
      * split; [discriminate | intros (c & m & H); discriminate H].
  - cbn. destruct e as [[code message|k| | | |what]| |]; cbn;
      (split; [reflexivity|]); (split; [reflexivity|]);
      (split; [intros r' s' Heq; discriminate Heq|]);
      (split; [intros H; try discriminate H | intros (c & m & H); try discriminate H]).
    + exists code, message. reflexivity.
    + reflexivity.
Qed.

End HandlerFacts.

(** ** The controller *)

Section ControllerFacts.
Context {S : Type} {T : Table S} {B : Builtins}.

Lemma quiet_run {A : Type} {c : M S A} :
  quiet c -> forall w r w', c w = (r, w') ->
  store w' = store w /\ calls w' = calls w /\ stdin w' = stdin w.
Proof. intros Hq w r w' E. specialize (Hq w). rewrite E in Hq. exact Hq. Qed.

Lemma quiet_ret {A : Type} (a : A) : quiet (ret (S := S) a).
Proof. intros w. cbn. auto. Qed.

Lemma quiet_raise {A : Type} (e : exn) : quiet (raise (S := S) (A := A) e).
Proof. intros w. cbn. auto. Qed.

Lemma quiet_print (m : Msg) : quiet (print (S := S) m).
Proof. intros w. cbn. auto. Qed.

Lemma quiet_bind {A C : Type} (c : M S A) (k : A -> M S C) :
  quiet c -> (forall a, quiet (k a)) -> quiet (bind c k).
Proof.
  intros Hc Hk w. unfold bind.
  destruct (c w) as [[a|e|] w1] eqn:E;
    destruct (quiet_run Hc w _ _ E) as (H1 & H2 & H3).
  - destruct (Hk a w1) as (K1 & K2 & K3).
    rewrite K1, K2, K3. auto.
  - cbn. auto.
  - cbn. auto.
Qed.

#[local] Hint Resolve quiet_ret quiet_raise quiet_print quiet_bind : quiet.

Lemma quiet_getitem (d : item) (k : string) : quiet (getitem (S := S) d k).
Proof. unfold getitem. destruct (dict_get d k); auto with quiet. Qed.

Lemma quiet_json_dumps (record : item) : quiet (json_dumps (S := S) record).
Proof. unfold json_dumps. destruct (encode (VMap record)); auto with quiet. Qed.

#[local] Hint Resolve quiet_getitem quiet_json_dumps : quiet.

Lemma quiet_display_each (records : list item) :
  forall i, quiet (display_each (S := S) i records).
Proof.
  induction records as [|record rest IH]; intros i; cbn [display_each];
    auto 8 with quiet.
Qed.

#[local] Hint Resolve quiet_display_each : quiet.

Lemma quiet_display_records (records : list item) : quiet (display_records (S := S) records).
Proof. unfold display_records. destruct (nonempty records); auto 6 with quiet. Qed.

(** The validity check reads the records and nothing else. *)
Lemma any_year_world (y : value) (found : list item) (w : World S) :
  snd (any_year y found w) = w.
Proof.
  induction found as [|movie rest IH]; cbn [any_year]; [reflexivity|].
  unfold bind, getitem. destruct (dict_get movie "year") as [v|]; cbn; [|reflexivity].
  destruct (py_eq v y); [reflexivity | exact IH].
Qed.

Lemma any_year_true (y : value) (found : list item) (w : World S) :
  fst (any_year y found w) = Ret true ->
  exists movie v, In movie found /\ dict_get movie "year" = Some v /\ py_eq v y = true.
Proof.
  induction found as [|movie rest IH]; cbn [any_year]; [discriminate|].
  unfold bind, getitem. destruct (dict_get movie "year") as [v|] eqn:Hv; cbn; [|discriminate].
  destruct (py_eq v y) eqn:He.
  - intros _. exists movie, v. cbn. auto.
  - intros H. destruct (IH H) as (m & v' & Hin & Hg & Hp).
    exists m, v'. cbn. auto.
Qed.

Lemma any_year_false (y : value) (found : list item) (w : World S) :
  (forall movie, In movie found ->
     exists v, dict_get movie "year" = Some v /\ py_eq v y = false) ->
  any_year y found w = (Ret false, w).
Proof.
  induction found as [|movie rest IH]; intros H; cbn [any_year]; [reflexivity|].
  destruct (H movie (or_introl eq_refl)) as (v & Hv & He).
  unfold bind, getitem. rewrite Hv. cbn. rewrite He.
  apply IH. intros m Hin. apply H. right. exact Hin.
Qed.

Lemma scan_pages_stdin fuel flt :
  forall r items (w : World S), stdin (snd (scan_pages fuel flt r items w)) = stdin w.
Proof.
  induction fuel as [|fuel IH]; intros r items w; cbn [scan_pages];
    destruct (LastEvaluatedKey r) as [k|]; try reflexivity.
  unfold bind, table_scan, request.
  destruct (scan _ (store w)) as [[r'|e] s']; cbn; [|reflexivity].
  rewrite IH. reflexivity.
Qed.

Lemma find_movies_by_title_stdin fuel title (w : World S) :
  stdin (snd (find_movies_by_title fuel title w)) = stdin w.
Proof.
  unfold find_movies_by_title, try_except, scan_all.
  unfold bind at 1. cbn [print].
  unfold bind at 1. unfold bind at 1. unfold table_scan, request. cbn.
  destruct (scan _ (store w)) as [[r|e] s']; cbn.
  - match goal with
    | |- context [scan_pages ?f ?fl ?r ?it ?w0] =>
        pose proof (scan_pages_stdin f fl r it w0) as Hs;
        destruct (scan_pages f fl r it w0) as [[items|e|] w1]
    end; cbn in Hs |- *.
    + destruct (nonempty items); cbn; exact Hs.
    + destruct e as [[]| |]; cbn; exact Hs.
    + exact Hs.
  - destruct e as [[]| |]; reflexivity.
Qed.

Lemma scan_pages_only_scans fuel flt :
  forall r items (w : World S),
    exists cs, calls (snd (scan_pages fuel flt r items w)) = calls w ++ cs
               /\ forallb is_scan cs = true.
Proof.
  induction fuel as [|fuel IH]; intros r items w; cbn [scan_pages];
    destruct (LastEvaluatedKey r) as [k|];
    try (exists []; cbn; rewrite app_nil_r; split; reflexivity).
  unfold bind, table_scan, request.
  destruct (scan _ (store w)) as [[r'|e] s']; cbn.
  - match goal with |- context [scan_pages fuel flt r' ?it ?w0] =>
      destruct (IH r' it w0) as (cs & E & Hcs) end.
    rewrite E. cbn.
    exists (CScan {| FilterExpression := flt; ExclusiveStartKey := Some k |} :: cs).
    rewrite <- app_assoc. split; [reflexivity | exact Hcs].
  - exists [CScan {| FilterExpression := flt; ExclusiveStartKey := Some k |}].
    split; reflexivity.
Qed.

(** The lookup sends scans and nothing else. *)
Lemma find_movies_by_title_only_scans fuel title (w : World S) :
  exists cs, calls (snd (find_movies_by_title fuel title w)) = calls w ++ cs
             /\ forallb is_scan cs = true.
Proof.
  unfold find_movies_by_title, try_except, scan_all.
  unfold bind at 1. cbn [print].
  unfold bind at 1. unfold bind at 1. unfold table_scan, request. cbn.
  destruct (scan _ (store w)) as [[r|e] s']; cbn.
  - match goal with
    | |- context [scan_pages ?f ?fl ?r ?it ?w0] =>
        destruct (scan_pages_only_scans f fl r it w0) as (cs & E & Hcs);
        destruct (scan_pages f fl r it w0) as [[items|e|] w1]
    end; cbn in E |- *;
      exists (CScan {| FilterExpression := Some title; ExclusiveStartKey := None |} :: cs);
      rewrite <- app_assoc in E; cbn in E.
    + destruct (nonempty items); cbn; split; [exact E | exact Hcs | exact E | exact Hcs].
    + destruct e as [[]| |]; cbn; split; try exact E; exact Hcs.
    + split; [exact E | exact Hcs].
  - exists [CScan {| FilterExpression := Some title; ExclusiveStartKey := None |}].
    destruct e as [[]| |]; split; reflexivity.
Qed.

Lemma lower_ascii_y (a : ascii) :
  lower_ascii a = "y"%char -> a = "y"%char \/ a = "Y"%char.
Proof.
  destruct a as [[] [] [] [] [] [] [] []]; cbn; intros H;
    first [discriminate H | left; reflexivity | right; reflexivity].
Qed.

(** Only [y] and [Y] lower to [y]. *)
Lemma lower_is_y (c : string) : lower c = "y" -> c = "y" \/ c = "Y".
Proof.
  destruct c as [|a [|b c']]; cbn; intros H; try discriminate H.
  injection H as H. destruct (lower_ascii_y a H) as [-> | ->]; auto.
Qed.

Lemma menu_delete_after_lookup fuel title rest0 found (w w2 : World S) :
  stdin w = title :: rest0 ->
  find_movies_by_title fuel title (typed [MsgDeleteBanner; Asked PromptDeleteTitle] rest0 w)
  = (Ret found, w2) ->
  menu_delete fuel w = delete_found title found w2 /\ stdin w2 = rest0.
Proof.
  intros Hin Hfind. split.
  - unfold menu_delete. unfold bind at 1. cbn [print].
    unfold bind at 1. unfold input. cbn. rewrite Hin.
    unfold typed in Hfind. rewrite <- app_assoc. cbn [app].
    rewrite (bind_Ret _ Hfind). reflexivity.
  - pose proof (find_movies_by_title_stdin fuel title
                  (typed [MsgDeleteBanner; Asked PromptDeleteTitle] rest0 w)) as H.
    rewrite Hfind in H. exact H.
Qed.


Lemma choose_year_single (movie : item) (w : World S) r w' :
  choose_year [movie] w = (r, w') ->
  store w' = store w /\ calls w' = calls w
  /\ (forall y, r = Ret y -> y <> VNone ->
        exists c rest, stdin w = c :: rest /\ stdin w' = rest /\ lower c = "y"
                       /\ dict_get movie "year" = Some y).
Proof.
  unfold choose_year. unfold bind at 1. cbn [print].
  unfold bind at 1.
  match goal with |- context [display_records [movie] ?w0] => set (w1 := w0) end.
  destruct (display_records [movie] w1) as [[[]|e|] w2] eqn:Hd;
    destruct (quiet_run (quiet_display_records [movie]) _ _ _ Hd) as (D1 & D2 & D3);
    cbn in D1, D2, D3.
  - unfold bind at 1. unfold getitem at 1.
    destruct (dict_get movie "title") as [t|]; cbn.
    2:{ ended_without_year. }
    unfold bind at 1. unfold getitem at 1.
    destruct (dict_get movie "year") as [yv|] eqn:Hy; cbn.
    2:{ ended_without_year. }
    unfold bind, input. rewrite D3.
    destruct (stdin w) as [|c rest] eqn:Hin; cbn.
    { ended_without_year. }
    destruct (String.eqb (lower c) "y") eqn:Hc.
    + unfold getitem. rewrite Hy. cbn.
      ended_here.
      intros y Hret _. injection Hret as <-.
      exists c, rest. repeat split; auto. apply String.eqb_eq. exact Hc.
    + cbn. ended_here.
      intros y Hret Hne. injection Hret as <-. contradiction Hne. reflexivity.
  - ended_without_year.
  - ended_without_year.
Qed.

Lemma delete_movie_calls (year : value) (title : string) (w : World S) :
  calls (snd (delete_movie year title w)) = calls w ++ [CDelete (delete_request year title)]
  /\ stdin (snd (delete_movie year title w)) = stdin w.
Proof.
  unfold delete_movie, try_except, bind, print, request, ret. cbn.
  destruct (delete_item _ (store w)) as [[response|e] s1]; cbn.
  - destruct (Attributes response); cbn; split; reflexivity.
  - destruct e as [[]| |]; cbn; split; reflexivity.
Qed.

(** After the year was chosen: nothing is sent, or one delete under the
    chosen year and the title typed in. *)
Lemma delete_found_after_choice (title : string) (found : list item) (y : value)
    (w w1 : World S) r w' :
  nonempty found = true ->
  choose_year found w = (Ret y, w1) ->
  delete_found title found w = (r, w') ->
  (store w' = store w1 /\ calls w' = calls w1)
  \/ (y <> VNone /\ fst (any_year y found w1) = Ret true
       /\ calls w' = calls w1 ++ [CDelete (delete_request y title)]).
Proof.
  intros Hne Hc. unfold delete_found. rewrite Hne. rewrite (bind_Ret _ Hc).
  assert (G : (valid <- any_year y found ;;
               if valid : bool then delete_movie y title ;; ret tt
               else print (MsgNoTitleYear title y)) w1 = (r, w') ->
              (store w' = store w1 /\ calls w' = calls w1)
              \/ (fst (any_year y found w1) = Ret true
                   /\ calls w' = calls w1 ++ [CDelete (delete_request y title)])).
  { unfold bind at 1.
    pose proof (any_year_world y found w1) as Hw.
    destruct (any_year y found w1) as [[[|]|e|] w2] eqn:Ha; cbn in Hw; subst w2; cbn.
    - unfold bind.
      pose proof (delete_movie_calls y title w1) as (Hd & _).
      destruct (delete_movie y title w1) as [[r0|e|] w2]; cbn in Hd |- *;
        intros E; injection E as <- <-; right; split; auto.
    - ended_here.
    - ended_here.
    - ended_here. }
  destruct y;
    try (intros E; destruct (G E) as [H | [H1 H2]];
         [left; exact H | right; split; [discriminate | split; assumption]]).
  cbn. ended_here.
Qed.

Lemma delete_found_single (title : string) (movie : item) (w : World S) r w' :
  delete_found title [movie] w = (r, w') ->
  (store w' = store w /\ calls w' = calls w)
  \/ (exists c rest year,
        stdin w = c :: rest /\ lower c = "y" /\ dict_get movie "year" = Some year
        /\ calls w' = calls w ++ [CDelete (delete_request year title)]).
Proof.
  intros E.
  destruct (choose_year [movie] w) as [[y|e|] w1] eqn:Hc;
    destruct (choose_year_single movie w _ _ Hc) as (C1 & C2 & C3).
  - destruct (delete_found_after_choice title [movie] y w w1 r w' eq_refl Hc E)
      as [[A1 A2] | (Hne & _ & A)].
    + left. rewrite A1, A2. auto.
    + right. destruct (C3 y eq_refl Hne) as (c & rest & Hin & _ & Hl & Hy).
      exists c, rest, y. rewrite A, C2. auto.
  - unfold delete_found in E. cbn [nonempty] in E. rewrite (bind_Raise _ Hc) in E.
    injection E as <- <-. left. auto.
  - unfold delete_found, bind in E. cbn [nonempty] in E. rewrite Hc in E.
    injection E as <- <-. left. auto.
Qed.

Lemma lower_n : lower "n" <> "y".
Proof. cbn. discriminate. Qed.

Lemma lower_empty : lower EmptyString <> "y".
Proof. cbn. discriminate. Qed.

(** C5. In the delete flow, when the lookup finds exactly one record: a
    request is sent after the lookup only if the next line typed is [y]
    or [Y], and then it is one delete under the record's own year; on [n]
    or an empty line nothing is sent, the service state is the one the
    lookup left, and the log holds no delete that was not there before. *)
Theorem delete_single_needs_yes :
  forall (fuel : nat) (title : string) (rest0 : list string) (movie : item)
         (w w2 : World S),
    stdin w = title :: rest0 ->
    find_movies_by_title fuel title (typed [MsgDeleteBanner; Asked PromptDeleteTitle] rest0 w)
    = (Ret [movie], w2) ->
    (calls (snd (menu_delete fuel w)) <> calls w2 ->
     exists c rest year,
       rest0 = c :: rest /\ (c = "y" \/ c = "Y") /\ dict_get movie "year" = Some year
       /\ calls (snd (menu_delete fuel w)) = calls w2 ++ [CDelete (delete_request year title)])
    /\ (forall c rest,
          rest0 = c :: rest -> c = "n" \/ c = EmptyString ->
          calls (snd (menu_delete fuel w)) = calls w2
          /\ store (snd (menu_delete fuel w)) = store w2
          /\ forall req, In (CDelete req) (calls (snd (menu_delete fuel w))) ->
                         In (CDelete req) (calls w)).
Proof.
  intros fuel title rest0 movie w w2 Hin Hfind.
  destruct (menu_delete_after_lookup fuel title rest0 [movie] w w2 Hin Hfind) as (E & Hrest).
  rewrite E.
  destruct (delete_found title [movie] w2) as [r w3] eqn:Hrun. cbn [snd].
  assert (Hscans : forall req, In (CDelete req) (calls w2) -> In (CDelete req) (calls w)).
  { destruct (find_movies_by_title_only_scans fuel title
                (typed [MsgDeleteBanner; Asked PromptDeleteTitle] rest0 w)) as (cs & Ec & Hcs).
    rewrite Hfind in Ec. cbn in Ec. rewrite Ec.
    intros req Hreq. apply in_app_or in Hreq. destruct Hreq as [Hreq | Hreq]; [exact Hreq|].
    rewrite forallb_forall in Hcs. specialize (Hcs _ Hreq). discriminate Hcs. }
  destruct (delete_found_single title movie w2 r w3 Hrun)
    as [[H1 H2] | (c & rest & year & Hc & Hl & Hy & Hd)].
  - split.
    + intros Hne. contradiction Hne.
    + intros c rest _ _. rewrite H2. auto.
  - split.
    + intros _. exists c, rest, year. rewrite <- Hrest.
      repeat split; auto. apply lower_is_y. exact Hl.
    + intros c' rest' Hc' Hno. rewrite Hrest, Hc' in Hc. injection Hc as -> ->.
      destruct Hno as [-> | ->]; [contradiction (lower_n Hl) | contradiction (lower_empty Hl)].
Qed.

Lemma display_each_encodable (records : list item) :
  encodable records ->
  forall i (w : World S),
    exists out,
      display_each i records w = (Ret tt, typed out (stdin w) w)
      /\ forall m, In m out -> is_asked_year m = false.
Proof.
  induction records as [|record rest IH]; intros Henc i w.
  - exists []. cbn. unfold ret, typed. rewrite app_nil_r.
    split; [destruct w; reflexivity | intros m []].
  - cbn [display_each]. unfold bind, print, json_dumps.
    destruct (encode (VMap record)) as [j|] eqn:Hj;
      [|contradiction (Henc record (or_introl eq_refl) Hj)].
    cbn.
    match goal with |- context [display_each _ rest ?w0] => set (w1 := w0) end.
    destruct (IH (fun r Hin => Henc r (or_intror Hin)) (Datatypes.S i) w1) as (out & E & Hout).
    exists ([MsgRecordHeader i; MsgRecordJson j] ++ out). split.
    + rewrite E. subst w1. unfold typed. cbn. rewrite <- !app_assoc. reflexivity.
    + intros m [<- | [<- | Hin]]; [reflexivity | reflexivity | apply Hout; exact Hin].
Qed.

Lemma display_records_encodable (records : list item) (w : World S) :
  encodable records ->
  exists out,
    display_records records w = (Ret tt, typed out (stdin w) w)
    /\ forall m, In m out -> is_asked_year m = false.
Proof.
  intros Henc. unfold display_records. destruct (nonempty records).
  - unfold bind at 1. cbn [print].
    match goal with |- context [bind (display_each 1 records) _ ?w0] => set (w1 := w0) end.
    destruct (display_each_encodable records Henc 1 w1) as (out & E & Hout).
    exists ([MsgDisplayHeader] ++ out ++ [MsgDisplayFooter]). split.
    + rewrite (bind_Ret _ E). subst w1. unfold print, typed. cbn.
      rewrite <- !app_assoc. reflexivity.
    + intros m Hin. cbn in Hin. destruct Hin as [<- | Hin]; [reflexivity|].
      apply in_app_or in Hin. destruct Hin as [Hin | [<- | []]];
        [apply Hout; exact Hin | reflexivity].
  - exists [MsgNoRecords]. split; [reflexivity|].
    intros m [<- | []]. reflexivity.
Qed.

(** With several matches the year is what [int] makes of the line typed. *)
Lemma choose_year_multi (found : list item) (w : World S) r w' :
  2 <= List.length found ->
  choose_year found w = (r, w') ->
  store w' = store w /\ calls w' = calls w
  /\ (forall y, r = Ret y -> y <> VNone ->
        exists ystr rest z, stdin w = ystr :: rest /\ int_of_str ystr = Some z /\ y = VInt z).
Proof.
  intros Hlen.
  destruct found as [|m1 [|m2 more]]; cbn in Hlen; try lia.
  unfold choose_year. unfold bind at 1. cbn [print].
  unfold bind at 1.
  match goal with |- context [display_records ?l ?w0] => set (w1 := w0); set (l0 := l) end.
  destruct (display_records l0 w1) as [[[]|e|] w2] eqn:Hd;
    destruct (quiet_run (quiet_display_records l0) _ _ _ Hd) as (D1 & D2 & D3);
    cbn in D1, D2, D3.
  - unfold try_except, bind, input, int_str. rewrite D3.
    destruct (stdin w) as [|ystr rest] eqn:Hin; cbn.
    { ended_without_year. }
    destruct (int_of_str ystr) as [z|] eqn:Hz; cbn.
    + ended_here.
      intros y Hy _. injection Hy as <-. exists ystr, rest, z. auto.
    + ended_here.
      intros y Hy Hne. injection Hy as <-. contradiction Hne. reflexivity.
  - ended_without_year.
  - ended_without_year.
Qed.

Lemma choose_year_multi_typed (found : list item) (w : World S) ystr rest :
  2 <= List.length found ->
  encodable found ->
  stdin w = ystr :: rest ->
  exists out,
    choose_year found w
    = (Ret match int_of_str ystr with Some z => VInt z | None => VNone end,
       typed (MsgFoundMultiple :: out ++ Asked PromptYear
                :: match int_of_str ystr with Some _ => [] | None => [MsgInvalidYear] end)
         rest w)
    /\ forall m, In m out -> is_asked_year m = false.
Proof.
  intros Hlen Henc Hin.
  destruct found as [|m1 [|m2 more]]; cbn in Hlen; try lia.
  unfold choose_year. unfold bind at 1. cbn [print].
  match goal with |- context [bind (display_records ?l) _ ?w0] => set (w1 := w0); set (l0 := l) end.
  destruct (display_records_encodable l0 w1 Henc) as (out & E & Hout).
  exists out. split; [|exact Hout].
  rewrite (bind_Ret _ E). subst w1.
  unfold try_except, bind, input, int_str, typed. cbn. rewrite Hin.
  destruct (int_of_str ystr) as [z|]; cbn; rewrite <- !app_assoc; reflexivity.
Qed.

Lemma delete_found_multi (title : string) (found : list item) (w : World S) r w' :
  2 <= List.length found ->
  delete_found title found w = (r, w') ->
  (store w' = store w /\ calls w' = calls w)
  \/ (exists ystr rest z,
        stdin w = ystr :: rest /\ int_of_str ystr = Some z
        /\ (exists movie v, In movie found /\ dict_get movie "year" = Some v
                             /\ py_eq v (VInt z) = true)
        /\ calls w' = calls w ++ [CDelete (delete_request (VInt z) title)]).
Proof.
  intros Hlen E.
  assert (Hne : nonempty found = true) by (destruct found; [cbn in Hlen; lia | reflexivity]).
  destruct (choose_year found w) as [[y|e|] w1] eqn:Hc;
    destruct (choose_year_multi found w _ _ Hlen Hc) as (C1 & C2 & C3).
  - destruct (delete_found_after_choice title found y w w1 r w' Hne Hc E)
      as [[A1 A2] | (Hy & Hany & A)].
    + left. rewrite A1, A2. auto.
    + right. destruct (C3 y eq_refl Hy) as (ystr & rest & z & Hin & Hz & ->).
      exists ystr, rest, z. rewrite A, C2. repeat split; auto.
      apply (any_year_true _ _ _ Hany).
  - unfold delete_found in E. rewrite Hne in E. rewrite (bind_Raise _ Hc) in E.
    injection E as <- <-. left. auto.
  - unfold delete_found, bind in E. rewrite Hne, Hc in E.
    injection E as <- <-. left. auto.
Qed.

(** C6. In the delete flow, when the lookup finds several records: a
    request is sent after the lookup only if the line typed reads as an
    integer equal to the year of one of the records found, and then it is
    one delete whose key is that integer with the title as it was typed.
    When the integer is the year of none of them, the flow says so and
    sends nothing. *)
Theorem delete_multi_validates_year :
  forall (fuel : nat) (title : string) (rest0 : list string) (found : list item)
         (w w2 : World S),
    stdin w = title :: rest0 ->
    find_movies_by_title fuel title (typed [MsgDeleteBanner; Asked PromptDeleteTitle] rest0 w)
    = (Ret found, w2) ->
    2 <= List.length found ->
    (calls (snd (menu_delete fuel w)) <> calls w2 ->
     exists ystr rest z,
       rest0 = ystr :: rest /\ int_of_str ystr = Some z
       /\ (exists movie v, In movie found /\ dict_get movie "year" = Some v
                            /\ py_eq v (VInt z) = true)
       /\ calls (snd (menu_delete fuel w))
          = calls w2 ++ [CDelete (delete_request (VInt z) title)])
    /\ (forall ystr rest z,
          rest0 = ystr :: rest -> int_of_str ystr = Some z ->
          encodable found ->
          (forall movie, In movie found ->
             exists v, dict_get movie "year" = Some v /\ py_eq v (VInt z) = false) ->
          exists out,
            menu_delete fuel w
            = (Ret tt, typed (out ++ [Asked PromptYear; MsgNoTitleYear title (VInt z)]) rest w2)).
Proof.
  intros fuel title rest0 found w w2 Hin Hfind Hlen.
  destruct (menu_delete_after_lookup fuel title rest0 found w w2 Hin Hfind) as (E & Hrest).
  rewrite E. split.
  - destruct (delete_found title found w2) as [r w3] eqn:Hrun. cbn [snd].
    intros Hne.
    destruct (delete_found_multi title found w2 r w3 Hlen Hrun)
      as [[_ H2] | (ystr & rest & z & Hs & Hz & Hm & Hc)].
    + contradiction Hne.
    + exists ystr, rest, z. rewrite <- Hrest. auto.
  - intros ystr rest z Hr0 Hz Henc Hnone.
    assert (Hs : stdin w2 = ystr :: rest) by (rewrite Hrest; exact Hr0).
    destruct (choose_year_multi_typed found w2 ystr rest Hlen Henc Hs) as (out & Hc & _).
    rewrite Hz in Hc.
    exists (MsgFoundMultiple :: out).
    unfold delete_found.
    assert (Hne : nonempty found = true) by (destruct found; [cbn in Hlen; lia | reflexivity]).
    rewrite Hne. rewrite (bind_Ret _ Hc).
    rewrite (bind_Ret _ (any_year_false (VInt z) found _ Hnone)).
    unfold print, typed. cbn. rewrite <- !app_assoc. cbn. rewrite <- !app_assoc.
    reflexivity.
Qed.


Lemma rating_loop_appends (fuel : nat) :
  forall (w : World S), exists more, stdout (snd (rating_loop fuel w)) = stdout w ++ more.
Proof.
  induction fuel as [|fuel IH]; intros w; cbn [rating_loop].
  - exists []. cbn. rewrite app_nil_r. reflexivity.
  - unfold bind at 1. unfold input.
    destruct (stdin w) as [|l rest]; cbn.
    + exists [Asked PromptRating]. reflexivity.
    + destruct (float_of_str l) as [x|].
      * destruct (String.eqb l EmptyString).
        -- match goal with |- context [rating_loop fuel ?w0] => destruct (IH w0) as [more E] end.
           rewrite E. cbn. exists (Asked PromptRating :: more).
           rewrite <- app_assoc. reflexivity.
        -- exists [Asked PromptRating]. reflexivity.
      * unfold bind, print.
        match goal with |- context [rating_loop fuel ?w0] => destruct (IH w0) as [more E] end.
        rewrite E. cbn. exists (Asked PromptRating :: MsgInvalidRating :: more).
        rewrite <- !app_assoc. reflexivity.
Qed.

Lemma rating_loop_invalid (fuel : nat) (s : string) (rest : list string) (w : World S) :
  stdin w = s :: rest ->
  float_of_str s = None ->
  rating_loop (Datatypes.S fuel) w
  = rating_loop fuel (typed [Asked PromptRating; MsgInvalidRating] rest w).
Proof.
  intros Hin Hs. cbn [rating_loop]. unfold bind at 1. unfold input. rewrite Hin. cbn.
  rewrite Hs. unfold bind, print, typed. cbn. rewrite <- app_assoc. reflexivity.
Qed.

(** C8, as amended.  A rating that [float] rejects is reported and the
    rating is asked for again at once.  A year that [int] rejects, when
    several records match, is reported as well, but the year is asked for
    once only: nothing is sent and the flow is back at the menu, with the
    rest of the input unread. *)
Theorem invalid_number_handling :
  (forall (fuel : nat) (s : string) (rest : list string) (w : World S),
      stdin w = s :: rest ->
      float_of_str s = None ->
      rating_loop (Datatypes.S (Datatypes.S fuel)) w
      = rating_loop (Datatypes.S fuel) (typed [Asked PromptRating; MsgInvalidRating] rest w)
      /\ exists more,
          stdout (snd (rating_loop (Datatypes.S (Datatypes.S fuel)) w))
          = stdout w ++ [Asked PromptRating; MsgInvalidRating; Asked PromptRating] ++ more)
  /\ (forall (n fuel : nat) (title ystr : string) (rest : list string) (found : list item)
             (w w2 : World S),
      stdin w = title :: ystr :: rest ->
      find_movies_by_title fuel title
        (typed [MsgDeleteBanner; Asked PromptDeleteTitle] (ystr :: rest) w)
      = (Ret found, w2) ->
      2 <= List.length found ->
      encodable found ->
      int_of_str ystr = None ->
      exists out,
        menu_delete fuel w
        = (Ret tt, typed (out ++ [Asked PromptYear; MsgInvalidYear]) rest w2)
        /\ (forall m, In m out -> is_asked_year m = false)
        /\ (menu_delete fuel ;; main_loop n fuel) w
           = main_loop n fuel (typed (out ++ [Asked PromptYear; MsgInvalidYear]) rest w2)).
Proof.
  split.
  - intros fuel s rest w Hin Hs.
    pose proof (rating_loop_invalid (Datatypes.S fuel) s rest w Hin Hs) as E.
    split; [exact E|].
    rewrite E. cbn [rating_loop]. unfold bind at 1. unfold input. cbn.
    destruct rest as [|l rest']; cbn.
    + exists []. rewrite <- app_assoc. reflexivity.
    + destruct (float_of_str l) as [x|].
      * destruct (String.eqb l EmptyString).
        -- match goal with |- context [rating_loop fuel ?w0] =>
             destruct (rating_loop_appends fuel w0) as [more E'] end.
           rewrite E'. cbn. exists more. rewrite <- !app_assoc. reflexivity.
        -- exists []. cbn. rewrite <- !app_assoc. reflexivity.
      * unfold bind, print.
        match goal with |- context [rating_loop fuel ?w0] =>
          destruct (rating_loop_appends fuel w0) as [more E'] end.
        rewrite E'. cbn. exists (MsgInvalidRating :: more).
        rewrite <- !app_assoc. reflexivity.
  - intros n fuel title ystr rest found w w2 Hin Hfind Hlen Henc Hy.
    destruct (menu_delete_after_lookup fuel title (ystr :: rest) found w w2 Hin Hfind)
      as (E & Hrest).
    destruct (choose_year_multi_typed found w2 ystr rest Hlen Henc Hrest) as (out & Hc & Hout).
    rewrite Hy in Hc.
    assert (Hne : nonempty found = true) by (destruct found; [cbn in Hlen; lia | reflexivity]).
    assert (Hrun : menu_delete fuel w
                   = (Ret tt, typed ((MsgFoundMultiple :: out)
                                     ++ [Asked PromptYear; MsgInvalidYear]) rest w2)).
    { rewrite E. unfold delete_found. rewrite Hne. rewrite (bind_Ret _ Hc). reflexivity. }
    exists (MsgFoundMultiple :: out). split; [exact Hrun|]. split.
    + intros m [<- | Hm]; [reflexivity | apply Hout; exact Hm].
    + rewrite (bind_Ret _ Hrun). reflexivity.
Qed.

End ControllerFacts.

(** ** Pages of the table in memory *)

Lemma holds_get_Items r l : holds r l -> get_Items r = l.
Proof. intros [r' l' H | r' H]; unfold get_Items; rewrite H; reflexivity. Qed.

Lemma holds_all_items rs ls : Forall2 holds rs ls -> all_items rs = List.concat ls.
Proof.
  induction 1 as [|r l rs ls H _ IH]; [reflexivity|].
  unfold all_items in *. simpl. rewrite (holds_get_Items r l H), IH. reflexivity.
Qed.

Lemma filter_concat_length (p : item -> bool) (ls : list (list item)) :
  List.length (filter p (List.concat ls))
  = list_sum (map (fun l => List.length (filter p l)) ls).
Proof.
  induction ls as [|l ls IH]; [reflexivity|].
  simpl. rewrite filter_app, length_app, IH. reflexivity.
Qed.

Lemma unique_keys_NoDup (l : list item) : unique_keys l = true -> NoDup l.
Proof.
  induction l as [|r l IH]; intros H; [constructor|].
  simpl in H. apply andb_prop in H as [H Hu]. apply andb_prop in H as [Hr Hl].
  constructor; [|exact (IH Hu)].
  intros Hin. rewrite forallb_forall in Hl. specialize (Hl r Hin).
  rewrite Hr in Hl. discriminate Hl.
Qed.

Lemma after_key_found (pre : list item) (x : item) (rest : list item) :
  unique_keys (pre ++ x :: rest) = true ->
  MemTable.after_key (MemTable.key_of x) (pre ++ x :: rest) = rest.
Proof.
  induction pre as [|a pre IH]; intros H; simpl in H;
    apply andb_prop in H as [H Hu]; apply andb_prop in H as [Hr Hl].
  - change (MemTable.after_key (MemTable.key_of x) ([] ++ x :: rest))
      with (if same_key x x then rest else MemTable.after_key (MemTable.key_of x) rest).
    rewrite Hr. reflexivity.
  - change (MemTable.after_key (MemTable.key_of x) ((a :: pre) ++ x :: rest))
      with (if same_key a x then pre ++ x :: rest
            else MemTable.after_key (MemTable.key_of x) (pre ++ x :: rest)).
    rewrite forallb_forall in Hl.
    assert (Hx : negb (same_key a x) = true).
    { apply Hl. apply in_or_app. right. left. reflexivity. }
    apply negb_true_iff in Hx. rewrite Hx. exact (IH Hu).
Qed.

Lemma filter_matches_None (l : list item) : filter (MemTable.matches None) l = l.
Proof. induction l as [|a l IH]; simpl; [|rewrite IH]; reflexivity. Qed.

Lemma page_count_one (n q : nat) : n <= S q -> page_count n (S q) = 1.
Proof.
  intros H. unfold page_count.
  assert ((n + S q - 1) / S q < 2) by (apply Nat.Div0.div_lt_upper_bound; lia).
  lia.
Qed.

Lemma page_count_step (a q : nat) :
  1 <= a -> page_count (a + S q) (S q) = S (page_count a (S q)).
Proof.
  intros H. unfold page_count.
  replace (a + S q + S q - 1) with (a + S q - 1 + 1 * S q) by lia.
  rewrite Nat.div_add by lia.
  assert (1 <= (a + S q - 1) / S q) by (apply Nat.div_le_lower_bound; lia).
  lia.
Qed.

Lemma mem_scan_page (rows : list item) (p : nat) (start : option item) :
  let st := {| MemTable.rows := rows; MemTable.page_size := p; MemTable.schedule := [] |} in
  let remaining := match start with Some k => MemTable.after_key k rows | None => rows end in
  forall page rest,
    match p with
    | O => (remaining, [])
    | _ => (firstn p remaining, skipn p remaining)
    end = (page, rest) ->
    @scan _ MemTable.table {| FilterExpression := None; ExclusiveStartKey := start |} st
    = (Reply {| Items := Some page;
                LastEvaluatedKey :=
                  match rest with
                  | [] => None
                  | _ :: _ => option_map MemTable.key_of (last (map Some page) None)
                  end |}, st).
Proof.
  intros st remaining page rest E.
  cbn [scan MemTable.table]. unfold MemTable.mem_scan, MemTable.next_fault.
  cbn [MemTable.schedule st MemTable.rows MemTable.page_size ExclusiveStartKey FilterExpression].
  fold remaining.
  replace (match p with
           | O => (remaining, [])
           | S n0 => (firstn (S n0) remaining, skipn (S n0) remaining)
           end) with (page, rest) by (rewrite <- E; destruct p; reflexivity).
  rewrite filter_matches_None. reflexivity.
Qed.

Lemma last_page (page : list item) (x : item) :
  last (map Some (page ++ [x])) None = Some x.
Proof. rewrite map_app. simpl. apply last_last. Qed.

Lemma mem_pages (rows : list item) (p : nat) :
  unique_keys rows = true ->
  forall n remaining done start,
    rows = done ++ remaining ->
    match start with Some k => MemTable.after_key k rows | None => rows end = remaining ->
    List.length remaining <= n ->
    exists rs,
      @pages _ MemTable.table None start
        {| MemTable.rows := rows; MemTable.page_size := p; MemTable.schedule := [] |} rs
        {| MemTable.rows := rows; MemTable.page_size := p; MemTable.schedule := [] |}
      /\ all_items rs = remaining
      /\ List.length rs = page_count (List.length remaining) p
      /\ List.length rs <= S (List.length remaining).
Proof.
  intros Hu n. induction n as [|n IH]; intros remaining done start Hrows Hstart Hlen.
  - destruct remaining; [|simpl in Hlen; lia].
    exists [{| Items := Some []; LastEvaluatedKey := None |}].
    split; [|split; [reflexivity|split; [|simpl; lia]]].
    + apply pages_last; [|reflexivity].
      rewrite (mem_scan_page rows p start [] []); [reflexivity|].
      rewrite Hstart. destruct p; reflexivity.
    + destruct p as [|q]; [reflexivity|]. rewrite page_count_one by (simpl; lia). reflexivity.
  - destruct p as [|q].
    + exists [{| Items := Some remaining; LastEvaluatedKey := None |}].
      split; [|split; [|split; [reflexivity|simpl; lia]]].
      * apply pages_last; [|reflexivity].
        rewrite (mem_scan_page rows 0 start remaining []); [reflexivity|].
        rewrite Hstart. reflexivity.
      * unfold all_items. simpl. rewrite app_nil_r. reflexivity.
    + destruct (skipn (S q) remaining) as [|y rest] eqn:Hrest.
      * assert (Hfirst : firstn (S q) remaining = remaining).
        { rewrite <- (firstn_skipn (S q) remaining) at 2. rewrite Hrest, app_nil_r. reflexivity. }
        assert (Hshort : List.length remaining <= S q).
        { pose proof (length_skipn (S q) remaining) as L. rewrite Hrest in L. simpl in L. lia. }
        exists [{| Items := Some remaining; LastEvaluatedKey := None |}].
        split; [|split; [|split; [|simpl; lia]]].
        -- apply pages_last; [|reflexivity].
           rewrite (mem_scan_page rows (S q) start remaining []); [reflexivity|].
           rewrite Hstart, Hrest, Hfirst. reflexivity.
        -- unfold all_items. simpl. rewrite app_nil_r. reflexivity.
        -- rewrite page_count_one by exact Hshort. reflexivity.
      * assert (Hsplit : firstn (S q) remaining ++ y :: rest = remaining).
        { rewrite <- Hrest. apply firstn_skipn. }
        assert (Hne : firstn (S q) remaining <> []).
        { destruct remaining; [discriminate Hrest | discriminate]. }
        destruct (exists_last Hne) as (page & x & Hpage).
        assert (Hlast : List.length (firstn (S q) remaining) = S q).
        { rewrite length_firstn.
          pose proof (length_skipn (S q) remaining) as L. rewrite Hrest in L. simpl in L. lia. }
        assert (Hafter : MemTable.after_key (MemTable.key_of x) rows = y :: rest).
        { assert (E : rows = (done ++ page) ++ x :: y :: rest).
          { rewrite <- app_assoc. change (x :: y :: rest) with ([x] ++ y :: rest).
            rewrite (app_assoc page), <- Hpage, Hsplit. exact Hrows. }
          rewrite E. apply after_key_found. rewrite <- E. exact Hu. }
        destruct (IH (y :: rest) (done ++ firstn (S q) remaining) (Some (MemTable.key_of x)))
          as (rs & Hp & Hall & Hcount & Hle).
        { rewrite <- app_assoc, Hsplit. exact Hrows. }
        { exact Hafter. }
        { apply (f_equal (@List.length item)) in Hsplit.
          rewrite length_app, Hlast in Hsplit. simpl in *. lia. }
        exists ({| Items := Some (firstn (S q) remaining);
                   LastEvaluatedKey := Some (MemTable.key_of x) |} :: rs).
        split; [|split; [|split]].
        -- apply pages_next with (k := MemTable.key_of x)
             (s' := {| MemTable.rows := rows; MemTable.page_size := S q;
                       MemTable.schedule := [] |}); [|reflexivity|exact Hp].
           rewrite (mem_scan_page rows (S q) start (firstn (S q) remaining) (y :: rest)).
           ++ rewrite Hpage at 2. rewrite last_page. reflexivity.
           ++ rewrite Hstart, Hrest. reflexivity.
        -- unfold all_items in *. simpl. rewrite Hall. exact Hsplit.
        -- assert (Hl : List.length remaining = List.length (y :: rest) + S q).
           { apply (f_equal (@List.length item)) in Hsplit.
             rewrite length_app, Hlast in Hsplit. lia. }
           rewrite Hl, page_count_step by (simpl; lia).
           cbn [List.length]. rewrite Hcount. reflexivity.
        -- apply (f_equal (@List.length item)) in Hsplit.
           rewrite length_app, Hlast in Hsplit. simpl in *. lia.
Qed.

(** C1. When the scan of the table takes the K pages [rs], which hold
    the lists of items [ls], and the loop has fuel for them,
    [get_all_records] sends exactly the K scan requests that follow the
    continuation keys, the first without a key, and returns the lists of
    [ls] joined in order of arrival: an item is returned as many times as
    the pages hold it, none is added, dropped or repeated.  When one of
    the requests raises a ClientError, it returns None.  On the table in
    memory, for records with unique keys and pages of any size, the scan
    takes [page_count] pages and [get_all_records] returns the records of
    the table as they are, each one once: no duplicates, wherever the
    page boundaries fall. *)
Theorem get_all_records_pages :
  (forall (S : Type) (T : Table S) (fuel : nat) (w : World S),
      (forall rs ls s',
          pages None None (store w) rs s' ->
          Forall2 holds rs ls ->
          List.length rs <= Datatypes.S fuel ->
          get_all_records fuel w
          = (Ret (Some (List.concat ls)),
             typed [MsgScanning; MsgFoundRecords (List.length (List.concat ls))] (stdin w)
               (served s' (requests_of None None rs) w))
          /\ List.length (requests_of None None rs) = List.length rs
          /\ (forall items,
                fst (get_all_records fuel w) = Ret (Some items) ->
                forall p : item -> bool,
                  List.length (filter p items)
                  = list_sum (map (fun l => List.length (filter p l)) ls)))
      /\ (forall rs code message s',
          pages_fault None None (store w) rs (ClientError code message) s' ->
          List.length rs <= fuel ->
          get_all_records fuel w
          = (Ret None,
             typed [MsgScanning; MsgError message] (stdin w)
               (served s' (fault_requests None None rs) w))))
  /\ (forall (rows : list item) (page_size fuel : nat) (stdin : list string),
        unique_keys rows = true ->
        List.length rows <= fuel ->
        exists rs,
          @pages _ MemTable.table None None
            (store (MemTable.world rows page_size [] stdin)) rs
            (store (MemTable.world rows page_size [] stdin))
          /\ List.length rs = page_count (List.length rows) page_size
          /\ @get_all_records _ MemTable.table fuel (MemTable.world rows page_size [] stdin)
             = (Ret (Some rows),
                typed [MsgScanning; MsgFoundRecords (List.length rows)] stdin
                  (served (store (MemTable.world rows page_size [] stdin))
                     (requests_of None None rs)
                     (MemTable.world rows page_size [] stdin)))
          /\ (forall items,
                fst (@get_all_records _ MemTable.table fuel
                       (MemTable.world rows page_size [] stdin)) = Ret (Some items) ->
                NoDup items)).
Proof.
  split.
  - intros S T fuel w. split.
    + intros rs ls s' Hp Hh Hlen.
      pose proof (get_all_records_found fuel w rs s' Hp Hlen) as E.
      rewrite (holds_all_items rs ls Hh) in E.
      split; [exact E|]. split; [apply requests_of_length|].
      intros items Hitems p. rewrite E in Hitems. cbn in Hitems.
      injection Hitems as <-. apply filter_concat_length.
    + intros rs code message s' Hp Hlen.
      exact (get_all_records_refused fuel w rs code message s' Hp Hlen).
  - intros rows page_size fuel stdin Hu Hlen.
    destruct (mem_pages rows page_size Hu (List.length rows) rows [] None
                eq_refl eq_refl (le_n _))
      as (rs & Hp & Hall & Hcount & Hle).
    exists rs.
    assert (E : @get_all_records _ MemTable.table fuel (MemTable.world rows page_size [] stdin)
                = (Ret (Some rows),
                   typed [MsgScanning; MsgFoundRecords (List.length rows)] stdin
                     (served (store (MemTable.world rows page_size [] stdin))
                        (requests_of None None rs)
                        (MemTable.world rows page_size [] stdin)))).
    { rewrite (get_all_records_found (T := MemTable.table) fuel
                 (MemTable.world rows page_size [] stdin) rs _ Hp) by lia.
      rewrite Hall. reflexivity. }
    split; [exact Hp|]. split; [exact Hcount|]. split; [exact E|].
    intros items Hitems. rewrite E in Hitems. cbn in Hitems.
    injection Hitems as <-. exact (unique_keys_NoDup rows Hu).
Qed.

(** ** Runs on the table in memory *)

Import Examples.

Lemma get_all_records_pages_witness :
  @get_all_records _ T 5 (MemTable.world four_rows 3 [] [])
  = (Ret (Some [matrix; MemTable.movie 2001 "X" d5; MemTable.movie 2002 "X" d5;
                MemTable.movie 2003 "X" d5]),
     mkWorld (store (MemTable.world four_rows 3 [] []))
       [CScan {| FilterExpression := None; ExclusiveStartKey := None |};
        CScan {| FilterExpression := None;
                 ExclusiveStartKey :=
                   Some [("year", VDec (Dec false 2002 0)); ("title", VStr "X")] |}]
       [MsgScanning; MsgFoundRecords 4] [])
  /\ @get_all_records _ T 5 (MemTable.world four_rows 3 [None; Some throttled] [])
     = (Ret None,
        mkWorld (store (MemTable.world four_rows 3 [] []))
          [CScan {| FilterExpression := None; ExclusiveStartKey := None |};
           CScan {| FilterExpression := None;
                    ExclusiveStartKey :=
                      Some [("year", VDec (Dec false 2002 0)); ("title", VStr "X")] |}]
          [MsgScanning; MsgError "Rate exceeded"] [])
  /\ fst (@get_all_records _ T 4 (MemTable.world four_rows 1 [] ["5"]))
     = Ret (Some [matrix; MemTable.movie 2001 "X" d5; MemTable.movie 2002 "X" d5;
                  MemTable.movie 2003 "X" d5])
  /\ List.length (calls (snd (@get_all_records _ T 4 (MemTable.world four_rows 1 [] ["5"]))))
     = 4
  /\ NoDup [matrix; MemTable.movie 2001 "X" d5; MemTable.movie 2002 "X" d5;
            MemTable.movie 2003 "X" d5].
Proof.
  split; [|split].
  - refine (proj1 (proj1 (proj1 get_all_records_pages _ T 5 (MemTable.world four_rows 3 [] []))
                     [page1; page2]
                     [[matrix; MemTable.movie 2001 "X" d5; MemTable.movie 2002 "X" d5];
                      [MemTable.movie 2003 "X" d5]]
                     (store (MemTable.world four_rows 3 [] [])) _ _ _)).
    + eapply pages_next; [reflexivity | reflexivity |].
      eapply pages_last; reflexivity.
    + repeat constructor.
    + cbn. lia.
  - refine (proj2 (proj1 get_all_records_pages _ T 5
                     (MemTable.world four_rows 3 [None; Some throttled] []))
              [page1] "ProvisionedThroughputExceededException" "Rate exceeded"
              (store (MemTable.world four_rows 3 [] [])) _ _).
    + eapply fault_later; [reflexivity | reflexivity |].
      eapply fault_now; reflexivity.
    + cbn. lia.
  - destruct (proj2 get_all_records_pages four_rows 1 4 ["5"] eq_refl (le_n 4))
      as (rs & Hp & Hcount & E & Hnd).
    unfold T. split; [|split].
    + rewrite E. reflexivity.
    + rewrite E. cbn [snd calls served typed MemTable.world app].
      rewrite requests_of_length. exact Hcount.
    + apply Hnd. rewrite E. reflexivity.
Defined.

Lemma update_movie_rating_refused_witness :
  let w := MemTable.world [matrix] 0 [Some not_found_fault] [] in
  let run := @update_movie_rating _ T B (VInt 1999) "The Matrix" f9_0 w in
  fst run = Ret None
  /\ stdout (snd run)
     = stdout w ++ [MsgUpdating "The Matrix" (VInt 1999) f9_0;
                    MsgUpdateNotFound "The Matrix" (VInt 1999)]
  /\ ("ConditionalCheckFailedException" = "ConditionalCheckFailedException" ->
      forall m, In (MsgUpdateError m) (stdout (snd run)) -> In (MsgUpdateError m) (stdout w)).
Proof.
  intros w run.
  apply (@update_movie_rating_refused _ T B (VInt 1999) "The Matrix" f9_0 w
           (Dec false 90 (-1)) "ConditionalCheckFailedException"
           "The conditional request failed"
           {| MemTable.rows := [matrix]; MemTable.page_size := 0; MemTable.schedule := [] |}).
  - reflexivity.
  - reflexivity.
Defined.

Lemma find_movies_by_title_empty_witness :
  @find_movies_by_title _ T 5 "Heat" (MemTable.world four_rows 3 [] [])
  = (Ret [],
     typed [MsgSearching "Heat"; MsgNoMovieFound "Heat"] []
       (served (store (MemTable.world four_rows 3 [] []))
          [CScan {| FilterExpression := Some "Heat"; ExclusiveStartKey := None |};
           CScan {| FilterExpression := Some "Heat";
                    ExclusiveStartKey := Some (MemTable.key_of (MemTable.movie 2002 "X" d5)) |}]
          (MemTable.world four_rows 3 [] [])))
  /\ @find_movies_by_title _ T 5 "X" (MemTable.world four_rows 3 [Some throttled] [])
     = (Ret [],
        typed [MsgSearching "X"; MsgSearchError "Rate exceeded"] []
          (served (store (MemTable.world four_rows 3 [] []))
             [CScan {| FilterExpression := Some "X"; ExclusiveStartKey := None |}]
             (MemTable.world four_rows 3 [Some throttled] []))).
Proof.
  split.
  - apply (proj1 (@find_movies_by_title_empty _ T 5 "Heat" (MemTable.world four_rows 3 [] []))
             [ {| Items := Some [];
                  LastEvaluatedKey := Some (MemTable.key_of (MemTable.movie 2002 "X" d5)) |};
               {| Items := Some []; LastEvaluatedKey := None |} ]
             (store (MemTable.world four_rows 3 [] []))).
    + eapply pages_next; [reflexivity | reflexivity |].
      eapply pages_last; reflexivity.
    + cbn. lia.
    + reflexivity.
  - apply (proj2 (@find_movies_by_title_empty _ T 5 "X"
                    (MemTable.world four_rows 3 [Some throttled] []))
             [] "ProvisionedThroughputExceededException" "Rate exceeded"
             (store (MemTable.world four_rows 3 [] []))).
    + eapply fault_now; reflexivity.
    + cbn. lia.
Defined.

Lemma delete_single_needs_yes_witness :
  let w := MemTable.world [matrix] 0 [] ["The Matrix"; "n"] in
  let w2 := snd (@find_movies_by_title _ T 5 "The Matrix"
                   (typed [MsgDeleteBanner; Asked PromptDeleteTitle] ["n"] w)) in
  calls (snd (@menu_delete _ T B 5 w)) = calls w2
  /\ store (snd (@menu_delete _ T B 5 w)) = store w2
  /\ forall req, In (CDelete req) (calls (snd (@menu_delete _ T B 5 w))) ->
                 In (CDelete req) (calls w).
Proof.
  intros w w2.
  apply (proj2 (@delete_single_needs_yes _ T B 5 "The Matrix" ["n"] matrix w w2
                  eq_refl eq_refl) "n" [] eq_refl (or_introl eq_refl)).
Defined.

Lemma three_x_encodable : @encodable B three_x.
Proof.
  intros record [<- | [<- | [<- | []]]]; discriminate.
Qed.

Lemma delete_multi_validates_year_witness :
  (let w := MemTable.world three_x 0 [] ["X"; "2002"] in
   let w2 := snd (@find_movies_by_title _ T 5 "X"
                    (typed [MsgDeleteBanner; Asked PromptDeleteTitle] ["2002"] w)) in
   exists ystr rest z,
     ["2002"] = ystr :: rest /\ int_of_str (Builtins := B) ystr = Some z
     /\ (exists movie v, In movie three_x /\ dict_get movie "year" = Some v
                          /\ py_eq v (VInt z) = true)
     /\ calls (snd (@menu_delete _ T B 5 w))
        = calls w2 ++ [CDelete (delete_request (VInt z) "X")])
  /\ (let w := MemTable.world three_x 0 [] ["X"; "1999"] in
      let w2 := snd (@find_movies_by_title _ T 5 "X"
                       (typed [MsgDeleteBanner; Asked PromptDeleteTitle] ["1999"] w)) in
      exists out,
        @menu_delete _ T B 5 w
        = (Ret tt, typed (out ++ [Asked PromptYear; MsgNoTitleYear "X" (VInt 1999)]) [] w2)).
Proof.
  split.
  - intros w w2.
    apply (proj1 (@delete_multi_validates_year _ T B 5 "X" ["2002"] three_x w w2
                    eq_refl eq_refl (le_S _ _ (le_n 2)))).
    vm_compute. discriminate.
  - intros w w2.
    apply (proj2 (@delete_multi_validates_year _ T B 5 "X" ["1999"] three_x w w2
                    eq_refl eq_refl (le_S _ _ (le_n 2))) "1999" [] 1999%Z eq_refl eq_refl
             three_x_encodable).
    intros movie [<- | [<- | [<- | []]]]; eexists; split; reflexivity.
Defined.

Lemma delete_movie_not_found_is_no_error_witness :
  let w := MemTable.world [matrix] 0 [] [] in
  @delete_movie _ T (VInt 2000) "Heat" w
  = (Ret (Some {| Attributes := None; ResponseMetadata := [] |}),
     typed [MsgDeleting "Heat" (VInt 2000); MsgDeleteNotFound "Heat" (VInt 2000)] []
       (served (store w) [CDelete (delete_request (VInt 2000) "Heat")] w)).
Proof.
  intros w.
  apply (proj1 (proj2 (proj2 (@delete_movie_not_found_is_no_error _ T (VInt 2000) "Heat" w)))
           {| Attributes := None; ResponseMetadata := [] |} (store w)).
  - reflexivity.
  - reflexivity.
Defined.

Lemma invalid_number_handling_witness :
  (let w := MemTable.world [matrix] 0 [] ["abc"; "9.0"] in
   @rating_loop _ B 3 w
   = @rating_loop _ B 2 (typed [Asked PromptRating; MsgInvalidRating] ["9.0"] w)
   /\ exists more,
       stdout (snd (@rating_loop _ B 3 w))
       = stdout w ++ [Asked PromptRating; MsgInvalidRating; Asked PromptRating] ++ more)
  /\ (let w := MemTable.world three_x 0 [] ["X"; "abc"; "2002"] in
      let w2 := snd (@find_movies_by_title _ T 5 "X"
                       (typed [MsgDeleteBanner; Asked PromptDeleteTitle] ["abc"; "2002"] w)) in
      exists out,
        @menu_delete _ T B 5 w
        = (Ret tt, typed (out ++ [Asked PromptYear; MsgInvalidYear]) ["2002"] w2)
        /\ (forall m, In m out -> is_asked_year m = false)
        /\ (@menu_delete _ T B 5 ;; @main_loop _ T B 4 5) w
           = @main_loop _ T B 4 5 (typed (out ++ [Asked PromptYear; MsgInvalidYear]) ["2002"] w2)).
Proof.
  split.
  - intros w.
    apply (proj1 (@invalid_number_handling _ T B) 1 "abc" ["9.0"] w eq_refl eq_refl).
  - intros w w2.
    apply (proj2 (@invalid_number_handling _ T B) 4 5 "X" "abc" ["2002"] three_x w w2
             eq_refl eq_refl (le_S _ _ (le_n 2)) three_x_encodable eq_refl).
Defined.

Lemma update_by_title_None_thrice_witness :
  fst (@update_movie_rating_by_title _ T B 5 "Heat" f9_0 (MemTable.world four_rows 0 [] []))
  = Ret None
  /\ fst (@update_movie_rating_by_title _ T B 5 "X" f9_0
            (MemTable.world four_rows 0 [Some throttled] []))
     = Ret None
  /\ fst (@update_movie_rating_by_title _ T B 5 "The Matrix" f9_0
            (MemTable.world four_rows 0 [None; Some throttled] []))
     = Ret None.
Proof.
  split; [|split].
  - apply update_by_title_None_thrice. left.
    exists [ {| Items := Some []; LastEvaluatedKey := None |} ],
           (store (MemTable.world four_rows 0 [] [])).
    split; [|split].
    + eapply pages_last; reflexivity.
    + reflexivity.
    + cbn. lia.
  - apply update_by_title_None_thrice. right. left.
    exists [], "ProvisionedThroughputExceededException", "Rate exceeded",
           (store (MemTable.world four_rows 0 [] [])).
    split.
    + eapply fault_now; reflexivity.
    + cbn. lia.
  - apply update_by_title_None_thrice. right. right.
    exists [ {| Items := Some [matrix]; LastEvaluatedKey := None |} ],
           (store (MemTable.world four_rows 0 [Some throttled] [])),
           [Failed "ProvisionedThroughputExceededException" "Rate exceeded"],
           (store (MemTable.world four_rows 0 [] [])).
    split; [|split; [|split; [|split]]].
    + eapply pages_last; reflexivity.
    + cbn. lia.
    + discriminate.
    + apply updates_fail with (r := Dec false 90 (-1))
                              (s1 := store (MemTable.world four_rows 0 [] []));
        [reflexivity | vm_compute; reflexivity | vm_compute; reflexivity | apply updates_nil].
    + reflexivity.
Defined.

(** C2, at a table whose three records titled X have the years 0, 1 and
    2: the record of year 0 has its year, yet the loop takes it for
    missing, warns and sends no update for it, so two updates are counted
    and not three; alone in the table, it gets no update at all.  With
    the years 2001, 2002 and 2003 all three are updated. *)
Theorem update_by_title_skips_year_zero :
  let w := MemTable.world from_year_zero 0 [] [] in
  let run := @update_movie_rating_by_title _ T B 5 "X" f9_0 w in
  map (fun it => dict_get it "year") from_year_zero
  = [Some (VDec (Dec false 0 0)); Some (VDec (Dec false 1 0)); Some (VDec (Dec false 2 0))]
  /\ option_map (@List.length Response) match fst run with Ret r => r | _ => None end = Some 2
  /\ calls (snd run)
     = [CScan {| FilterExpression := Some "X"; ExclusiveStartKey := None |};
        CUpdate (update_request (VDec (Dec false 1 0)) "X" (Dec false 90 (-1)));
        CUpdate (update_request (VDec (Dec false 2 0)) "X" (Dec false 90 (-1)))]
  /\ In (MsgWarnYearMissing "X") (stdout (snd run))
  /\ In (MsgUpdatedCount 2 "X") (stdout (snd run))
  /\ In (MsgUpdatedCount 3 "X")
       (stdout (snd (@update_movie_rating_by_title _ T B 5 "X" f9_0
                       (MemTable.world three_x 0 [] []))))
  /\ @update_movie_rating_by_title _ T B 5 "X" f9_0
       (MemTable.world [MemTable.movie 0 "X" d5] 0 [] [])
     = (Ret None,
        mkWorld (store (MemTable.world [MemTable.movie 0 "X" d5] 0 [] []))
          [CScan {| FilterExpression := Some "X"; ExclusiveStartKey := None |}]
          [MsgAttemptUpdate "X" f9_0; MsgFoundToUpdate 1 "X"; MsgWarnYearMissing "X";
           MsgNoUpdatesApplied "X"]
          []).
Proof.
  intros w run.
  split; [reflexivity|].
  split; [vm_compute; reflexivity|].
  split; [vm_compute; reflexivity|].
  split; [vm_compute; tauto|].
  split; [vm_compute; tauto|].
  split; [vm_compute; tauto|].
  vm_compute. reflexivity.
Qed.

Lemma update_not_found_same_result :
  fst (@update_movie_rating _ T B (VInt 1999) "The Matrix" f9_0
         (MemTable.world [matrix] 0 [Some not_found_fault] []))
  = Ret None
  /\ fst (@update_movie_rating _ T B (VInt 1999) "The Matrix" f9_0
            (MemTable.world [matrix] 0 [Some throttled] []))
     = Ret None.
Proof. split; vm_compute; reflexivity. Qed.

Lemma find_fault_looks_empty :
  fst (@find_movies_by_title _ T 5 "The Matrix" (MemTable.world [matrix] 0 [Some throttled] []))
  = Ret []
  /\ fst (@find_movies_by_title _ T 5 "Heat" (MemTable.world [matrix] 0 [] []))
     = Ret []
  /\ fst (@find_movies_by_title _ T 5 "The Matrix" (MemTable.world [matrix] 0 [] []))
     = Ret [matrix].
Proof. repeat split; vm_compute; reflexivity. Qed.

Lemma invalid_year_back_to_menu :
  let w' := snd (@main _ T B 5 5 (MemTable.world three_x 0 [] ["4"; "X"; "abc"; "2002"; "5"])) in
  after is_invalid_year (stdout w')
  = [MsgMenuHeader; MsgMenuOption 1; MsgMenuOption 2; MsgMenuOption 3; MsgMenuOption 4;
     MsgMenuOption 5; Asked PromptChoice; MsgInvalidChoice;
     MsgMenuHeader; MsgMenuOption 1; MsgMenuOption 2; MsgMenuOption 3; MsgMenuOption 4;
     MsgMenuOption 5; Asked PromptChoice; MsgFinished]
  /\ List.length (filter is_asked_year (stdout w')) = 1
  /\ MemTable.rows (store w') = three_x.
Proof. repeat split; vm_compute; reflexivity. Qed.

(** C9. The line 8.5 reads as the float 8.5, whose string reads as the
    Decimal 85e-1.  In a session that updates The Matrix to 8.5 and then
    lists the table, the update request carries that Decimal, the table
    holds it, and the record is shown with the float 8.5, written 8.5.
    Displaying records sends nothing to the service and leaves its state
    as it was: the conversion to float touches the text shown and nothing
    stored. *)
Theorem rating_round_trip :
  float_of_str (Builtins := B) "8.5" = Some f8_5
  /\ Decimal_of_str (Builtins := B) (str_of_float (Builtins := B) f8_5) = Some d8_5
  /\ (let w' := snd (@main _ T B 5 5
                       (MemTable.world [matrix] 0 [] ["2"; "The Matrix"; "8.5"; "1"; "5"])) in
      MemTable.rows (store w') = [MemTable.movie 1999 "The Matrix" d8_5]
      /\ In (CUpdate (update_request (VDec (Dec false 1999 0)) "The Matrix" d8_5)) (calls w')
      /\ map (json_at ["info"; "rating"]) (printed_json (stdout w')) = [Some (JFloat f8_5)])
  /\ CPython.json_float f8_5 = "8.5"
  /\ (forall (S : Type) (T : Table S) (B : Builtins) (records : list item) (w : World S),
        store (snd (display_records records w)) = store w
        /\ calls (snd (display_records records w)) = calls w).
Proof.
  split; [vm_compute; reflexivity|].
  split; [vm_compute; reflexivity|].
  split.
  { cbv zeta. split; [vm_compute; reflexivity|].
    split; [vm_compute; tauto|].
    vm_compute; reflexivity. }
  split; [vm_compute; reflexivity|].
  intros S T0 B0 records w.
  destruct (quiet_display_records (B := B0) records w) as (H1 & H2 & _).
  split; assumption.
Qed.

(** * Further properties *)

(** ** The handler, further *)

Section HandlerMore.
Context {S : Type} {T : Table S} {B : Builtins}.

(** Whatever the service answers, a scan and the loop after it log scans
    under the filter given, and leave the input alone. *)
Lemma scan_pages_log fuel flt :
  forall r items (w : World S),
    exists cs,
      calls (snd (scan_pages fuel flt r items w)) = calls w ++ cs
      /\ Forall (fun c => exists start,
                   c = CScan {| FilterExpression := flt; ExclusiveStartKey := start |}) cs
      /\ stdin (snd (scan_pages fuel flt r items w)) = stdin w
      /\ stdout (snd (scan_pages fuel flt r items w)) = stdout w.
Proof.
  induction fuel as [|fuel IH]; intros r items w; cbn [scan_pages];
    destruct (LastEvaluatedKey r) as [k|];
    try solve [exists []; cbn; rewrite app_nil_r; repeat split; auto].
  unfold bind, table_scan, request.
  destruct (scan _ (store w)) as [[r'|e] s']; cbn.
  - match goal with |- context [scan_pages fuel flt r' ?it ?w0] =>
      destruct (IH r' it w0) as (cs & E & Hcs & Hin & Hout) end.
    exists (CScan {| FilterExpression := flt; ExclusiveStartKey := Some k |} :: cs).
    rewrite E, Hin, Hout. cbn. rewrite <- app_assoc.
    repeat split; auto. constructor; [eexists; reflexivity | exact Hcs].
  - exists [CScan {| FilterExpression := flt; ExclusiveStartKey := Some k |}].
    repeat split; auto. constructor; [eexists; reflexivity | constructor].
Qed.

Lemma scan_all_log fuel flt (w : World S) :
  exists cs,
    calls (snd (scan_all fuel flt w)) = calls w ++ cs
    /\ Forall (fun c => exists start,
                 c = CScan {| FilterExpression := flt; ExclusiveStartKey := start |}) cs
    /\ stdin (snd (scan_all fuel flt w)) = stdin w
    /\ stdout (snd (scan_all fuel flt w)) = stdout w.
Proof.
  unfold scan_all, bind, table_scan, request.
  destruct (scan _ (store w)) as [[r|e] s']; cbn.
  - match goal with |- context [scan_pages fuel flt r ?it ?w0] =>
      destruct (scan_pages_log fuel flt r it w0) as (cs & E & Hcs & Hin & Hout) end.
    exists (CScan {| FilterExpression := flt; ExclusiveStartKey := None |} :: cs).
    rewrite E, Hin, Hout. cbn. rewrite <- app_assoc.
    repeat split; auto. constructor; [eexists; reflexivity | exact Hcs].
  - exists [CScan {| FilterExpression := flt; ExclusiveStartKey := None |}].
    repeat split; auto. constructor; [eexists; reflexivity | constructor].
Qed.

Lemma scans_are_scans flt (cs : list Call) :
  Forall (fun c => exists start,
            c = CScan {| FilterExpression := flt; ExclusiveStartKey := start |}) cs ->
  forallb is_scan cs = true.
Proof.
  induction 1 as [|c cs (start & ->) _ IH]; [reflexivity | exact IH].
Qed.

Lemma get_all_records_log fuel (w : World S) r w' :
  get_all_records fuel w = (r, w') ->
  (exists cs, calls w' = calls w ++ cs /\ forallb is_scan cs = true)
  /\ stdin w' = stdin w.
Proof.
  unfold get_all_records, try_except. unfold bind at 1. cbn [print].
  unfold bind at 1.
  match goal with |- context [scan_all fuel None ?w0] =>
    destruct (scan_all_log fuel None w0) as (cs & E & Hcs & Hin & _);
    destruct (scan_all fuel None w0) as [[items|e|] w1]
  end; cbn in E, Hin |- *.
  - intros H; injection H as <- <-. cbn.
    split; [exists cs; split; [exact E | exact (scans_are_scans _ _ Hcs)] | exact Hin].
  - destruct e as [[]| |]; cbn; intros H; injection H as <- <-; cbn;
      (split; [exists cs; split; [exact E | exact (scans_are_scans _ _ Hcs)] | exact Hin]).
  - intros H; injection H as <- <-.
    split; [exists cs; split; [exact E | exact (scans_are_scans _ _ Hcs)] | exact Hin].
Qed.

(** X1. Whatever the service answers and however much fuel there is,
    [get_all_records] and [find_movies_by_title] send scans and nothing
    else, and read no input. *)
Theorem reads_send_only_scans :
  forall (fuel : nat) (w : World S),
    ((exists cs, calls (snd (get_all_records fuel w)) = calls w ++ cs
                 /\ forallb is_scan cs = true)
     /\ stdin (snd (get_all_records fuel w)) = stdin w)
    /\ forall title,
         (exists cs, calls (snd (find_movies_by_title fuel title w)) = calls w ++ cs
                     /\ forallb is_scan cs = true)
         /\ stdin (snd (find_movies_by_title fuel title w)) = stdin w.
Proof.
  intros fuel w. split.
  - destruct (get_all_records fuel w) as [r w'] eqn:Hrun.
    exact (get_all_records_log fuel w r w' Hrun).
  - intros title. split.
    + apply find_movies_by_title_only_scans.
    + apply find_movies_by_title_stdin.
Qed.


Lemma on_ClientError_other {A : Type} (h : string -> string -> M S A) (e : raised) :
  (forall code message, e <> ClientError code message) ->
  on_ClientError h e = None.
Proof.
  intros H. destruct e as [[code message| | | | |]| |]; try reflexivity.
  contradiction (H code message). reflexivity.
Qed.

Lemma update_movie_rating_other {year title new_rating} {w : World S} {r e s'} :
  Decimal_of_str (str_of_float new_rating) = Some r ->
  update_item (update_request year title r) (store w) = (Fault e, s') ->
  (forall code message, e <> ClientError code message) ->
  update_movie_rating year title new_rating w
  = (Raise e,
     typed [MsgUpdating title year new_rating] (stdin w)
       (served s' [CUpdate (update_request year title r)] w)).
Proof.
  intros Hd Hu He.
  unfold update_movie_rating.
  erewrite try_Raise.
  2:{ unfold bind, print, Decimal_str, request, ret. cbn. rewrite Hd. cbn.
      change {| upd_Key := {| key_year := year; key_title := title |};
                UpdateExpression := "set info.rating = :r";
                ExpressionAttributeValues := [(":r", r)];
                upd_ReturnValues := "UPDATED_NEW" |}
        with (update_request year title r).
      rewrite Hu. cbn. reflexivity. }
  rewrite (on_ClientError_other _ e He). reflexivity.
Qed.

Lemma update_movie_rating_no_Decimal {year title new_rating} {w : World S} :
  Decimal_of_str (str_of_float new_rating) = None ->
  update_movie_rating year title new_rating w
  = (Raise (OtherError "InvalidOperation"),
     typed [MsgUpdating title year new_rating] (stdin w) w).
Proof.
  intros Hd.
  unfold update_movie_rating, try_except, bind, print, Decimal_str, raise. cbn.
  rewrite Hd. reflexivity.
Qed.

(** X2. [update_movie_rating] sends one update request: the key is the
    year and title given, the expression sets info.rating, the value is
    the Decimal of the rating's string, and the new attributes are asked
    back.  An answer is returned as it is; an exception that is no
    ClientError goes on to the caller.  When the string is no Decimal,
    nothing is sent. *)
Theorem update_movie_rating_one_request :
  forall (year : value) (title : string) (new_rating : float) (w : World S),
    (forall r,
        Decimal_of_str (str_of_float new_rating) = Some r ->
        calls (snd (update_movie_rating year title new_rating w))
        = calls w ++ [CUpdate (update_request year title r)]
        /\ (forall response s',
              update_item (update_request year title r) (store w) = (Reply response, s') ->
              update_movie_rating year title new_rating w
              = (Ret (Some response),
                 typed [MsgUpdating title year new_rating; MsgUpdateSuccessful] (stdin w)
                   (served s' [CUpdate (update_request year title r)] w)))
        /\ (forall e s',
              update_item (update_request year title r) (store w) = (Fault e, s') ->
              (forall code message, e <> ClientError code message) ->
              update_movie_rating year title new_rating w
              = (Raise e,
                 typed [MsgUpdating title year new_rating] (stdin w)
                   (served s' [CUpdate (update_request year title r)] w))))
    /\ (Decimal_of_str (str_of_float new_rating) = None ->
        update_movie_rating year title new_rating w
        = (Raise (OtherError "InvalidOperation"),
           typed [MsgUpdating title year new_rating] (stdin w) w)).
Proof.
  intros year title new_rating w. split.
  - intros r Hd. split; [|split].
    + destruct (update_item (update_request year title r) (store w)) as [[response|e] s'] eqn:Hu.
      * rewrite (update_movie_rating_Reply Hd Hu). reflexivity.
      * destruct e as [[code message|k| | | |what]| |];
          try (rewrite (update_movie_rating_other Hd Hu) by discriminate; reflexivity).
        rewrite (update_movie_rating_ClientError Hd Hu). reflexivity.
    + intros response s' Hu. exact (update_movie_rating_Reply Hd Hu).
    + intros e s' Hu He. exact (update_movie_rating_other Hd Hu He).
  - intros Hd. exact (update_movie_rating_no_Decimal Hd).
Qed.

(** One update of a record logs at most one request, an update of a key
    with the title given. *)
Lemma update_movie_rating_log year title new_rating (w : World S) :
  exists cs,
    calls (snd (update_movie_rating year title new_rating w)) = calls w ++ cs
    /\ forallb (about_title title) cs = true
    /\ List.length cs <= 1
    /\ stdin (snd (update_movie_rating year title new_rating w)) = stdin w.
Proof.
  destruct (Decimal_of_str (str_of_float new_rating)) as [r|] eqn:Hd.
  - exists [CUpdate (update_request year title r)].
    assert (Hk : forallb (about_title title) [CUpdate (update_request year title r)] = true).
    { cbn. rewrite String.eqb_refl. reflexivity. }
    destruct (update_item (update_request year title r) (store w)) as [[response|e] s'] eqn:Hu.
    + rewrite (update_movie_rating_Reply Hd Hu). cbn. auto.
    + destruct e as [[code message|k| | | |what]| |];
        try (rewrite (update_movie_rating_other Hd Hu) by discriminate; cbn; auto).
      rewrite (update_movie_rating_ClientError Hd Hu). cbn. auto.
  - exists []. rewrite (update_movie_rating_no_Decimal Hd). cbn.
    rewrite app_nil_r. auto.
Qed.

Lemma update_each_log title new_rating (items : list item) :
  forall acc (w : World S) r w',
    update_each title new_rating items acc w = (r, w') ->
    exists cs,
      calls w' = calls w ++ cs
      /\ forallb (about_title title) cs = true
      /\ List.length cs <= List.length items
      /\ stdin w' = stdin w.
Proof.
  induction items as [|it rest IH]; intros acc w r w'; cbn [update_each].
  - intros H; injection H as <- <-. exists []. cbn. rewrite app_nil_r. auto.
  - destruct (truthy (get it "year")).
    + unfold bind at 1.
      destruct (update_movie_rating_log (get it "year") title new_rating w)
        as (c1 & E1 & K1 & L1 & I1).
      destruct (update_movie_rating (get it "year") title new_rating w)
        as [[[response|]|e|] w1]; cbn in E1, I1 |- *.
      * destruct (response_truthy response); intros H;
          destruct (IH _ _ _ _ H) as (c2 & E2 & K2 & L2 & I2);
          exists (c1 ++ c2); rewrite E2, E1, I2, I1, <- app_assoc, forallb_app, K1, K2,
            length_app; cbn; repeat split; auto; lia.
      * intros H. destruct (IH _ _ _ _ H) as (c2 & E2 & K2 & L2 & I2).
        exists (c1 ++ c2). rewrite E2, E1, I2, I1, <- app_assoc, forallb_app, K1, K2,
          length_app. cbn. repeat split; auto. lia.
      * intros H; injection H as <- <-. exists c1. repeat split; auto. cbn. lia.
      * intros H; injection H as <- <-. exists c1. repeat split; auto. cbn. lia.
    + unfold bind at 1. cbn [print]. intros H.
      destruct (IH _ _ _ _ H) as (c2 & E2 & K2 & L2 & I2).
      exists c2. rewrite E2, I2. cbn. repeat split; auto.
Qed.

Lemma scans_about_title title (cs : list Call) :
  Forall (fun c => exists start,
            c = CScan {| FilterExpression := Some title; ExclusiveStartKey := start |}) cs ->
  forallb (about_title title) cs = true.
Proof.
  induction 1 as [|c cs (start & ->) _ IH]; [reflexivity|].
  cbn. rewrite String.eqb_refl. exact IH.
Qed.

Lemma update_by_title_log fuel title new_rating (w : World S) r w' :
  update_movie_rating_by_title fuel title new_rating w = (r, w') ->
  exists cs,
    calls w' = calls w ++ cs
    /\ forallb (about_title title) cs = true
    /\ stdin w' = stdin w.
Proof.
  unfold update_movie_rating_by_title, try_except.
  unfold bind at 1. cbn [print]. unfold bind at 1.
  match goal with |- context [scan_all fuel (Some title) ?w0] =>
    destruct (scan_all_log fuel (Some title) w0) as (c1 & E1 & H1 & I1 & _);
    destruct (scan_all fuel (Some title) w0) as [[items|e|] w1]
  end; cbn in E1, I1 |- *.
  all: pose proof (scans_about_title title c1 H1) as K1.
  - destruct (nonempty items).
    + unfold bind at 1. cbn [print]. unfold bind at 1.
      match goal with |- context [update_each title new_rating items [] ?w0] =>
        destruct (update_each title new_rating items [] w0) as [r2 w2] eqn:Hrun;
        destruct (update_each_log title new_rating items [] w0 r2 w2 Hrun)
          as (c2 & E2 & K2 & _ & I2);
        destruct r2 as [resps|e|]
      end; cbn in E2, I2 |- *.
      * destruct (nonempty resps); cbn; intros H; injection H as <- <-; cbn;
          exists (c1 ++ c2); rewrite E2, E1, I2, I1, <- app_assoc, forallb_app, K1, K2; auto.
      * destruct e as [[]| |]; cbn; intros H; injection H as <- <-; cbn;
          exists (c1 ++ c2); rewrite E2, E1, I2, I1, <- app_assoc, forallb_app, K1, K2; auto.
      * intros H; injection H as <- <-.
        exists (c1 ++ c2). rewrite E2, E1, I2, I1, <- app_assoc, forallb_app, K1, K2. auto.
    + cbn. intros H; injection H as <- <-. cbn. exists c1. auto.
  - destruct e as [[]| |]; cbn; intros H; injection H as <- <-; cbn; exists c1; auto.
  - intros H; injection H as <- <-. exists c1. auto.
Qed.

(** X4. Whatever the service answers, every request of
    [update_movie_rating_by_title] is a scan filtered on the title or an
    update of a key with the title; it sends no delete and reads no
    input. *)
Theorem update_by_title_stays_on_title :
  forall (fuel : nat) (title : string) (new_rating : float) (w : World S),
    exists cs,
      calls (snd (update_movie_rating_by_title fuel title new_rating w)) = calls w ++ cs
      /\ forallb (about_title title) cs = true
      /\ (forall req, In (CDelete req) cs -> False)
      /\ stdin (snd (update_movie_rating_by_title fuel title new_rating w)) = stdin w.
Proof.
  intros fuel title new_rating w.
  destruct (update_movie_rating_by_title fuel title new_rating w) as [r w'] eqn:Hrun.
  destruct (update_by_title_log fuel title new_rating w r w' Hrun) as (cs & E & K & I).
  exists cs. cbn. repeat split; auto.
  intros req Hin. rewrite forallb_forall in K. specialize (K _ Hin). discriminate K.
Qed.


(** X5. A scan that raises something other than a ClientError is not
    turned into None or an empty list: [get_all_records],
    [find_movies_by_title] and [update_movie_rating_by_title] raise it in
    turn, having printed their first line only. *)
Theorem other_faults_propagate :
  forall (fuel : nat) (title : string) (new_rating : float) (w : World S)
         (rs : list ScanResponse) (e : exn) (s' : S),
    (forall code message, e <> ClientError code message) ->
    List.length rs <= fuel ->
    (pages_fault None None (store w) rs e s' ->
     get_all_records fuel w
     = (Raise e, typed [MsgScanning] (stdin w) (served s' (fault_requests None None rs) w)))
    /\ (pages_fault (Some title) None (store w) rs e s' ->
        find_movies_by_title fuel title w
        = (Raise e,
           typed [MsgSearching title] (stdin w)
             (served s' (fault_requests (Some title) None rs) w))
        /\ update_movie_rating_by_title fuel title new_rating w
           = (Raise e,
              typed [MsgAttemptUpdate title new_rating] (stdin w)
                (served s' (fault_requests (Some title) None rs) w))).
Proof.
  intros fuel title new_rating w rs e s' He0 Hlen.
  assert (He : forall code message, Exc e <> ClientError code message).
  { intros code message H. injection H as H. exact (He0 code message H). }
  split; [|split].
  - intros Hp. unfold get_all_records.
    erewrite try_Raise.
    2:{ unfold bind at 1. cbn [print].
        apply bind_Raise. apply scan_all_fault; [exact Hp | exact Hlen]. }
    rewrite (on_ClientError_other _ e He). reflexivity.
  - unfold find_movies_by_title. unfold bind at 1. cbn [print].
    erewrite try_Raise
      by (apply bind_Raise; apply scan_all_fault; [exact H | exact Hlen]).
    rewrite (on_ClientError_other _ e He). reflexivity.
  - unfold update_movie_rating_by_title. unfold bind at 1. cbn [print].
    erewrite try_Raise
      by (apply bind_Raise; apply scan_all_fault; [exact H | exact Hlen]).
    rewrite (on_ClientError_other _ e He). reflexivity.
Qed.

(** X3. When records match, [update_movie_rating_by_title] returns the
    responses of the updates that went through, in order, and None when
    there is none; it returns a list exactly when one update went
    through.  It sends one update for each record whose year is truthy. *)
Theorem update_by_title_aggregates :
  forall (fuel : nat) (title : string) (new_rating : float) (w : World S)
         (rs : list ScanResponse) (s1 : S) (ats : list attempt) (s2 : S),
    pages (Some title) None (store w) rs s1 ->
    List.length rs <= Datatypes.S fuel ->
    all_items rs <> [] ->
    updates title new_rating (all_items rs) s1 ats s2 ->
    (exists out,
        update_movie_rating_by_title fuel title new_rating w
        = (Ret (if nonempty (successes ats) then Some (successes ats) else None),
           typed out (stdin w)
             (served s2 (requests_of (Some title) None rs
                         ++ update_calls title new_rating (all_items rs)) w)))
    /\ ((exists response, In (Updated response) ats)
        <-> fst (update_movie_rating_by_title fuel title new_rating w)
            = Ret (Some (successes ats)))
    /\ List.length (update_calls title new_rating (all_items rs))
       = List.length (filter (fun it => truthy (get it "year")) (all_items rs)).
Proof.
  intros fuel title new_rating w rs s1 ats s2 Hp Hlen Hsome Hup.
  destruct (update_by_title_updates fuel title new_rating w rs s1 ats s2 Hp Hlen Hsome Hup)
    as (out & E).
  split; [exists out; exact E|]. split.
  - rewrite E. cbn [fst].
    assert (Hs : (exists response, In (Updated response) ats) <-> successes ats <> []).
    { clear. induction ats as [|a ats IH]; cbn.
      - split; [intros (r & []) | intros H; contradiction H; reflexivity].
      - destruct a as [|code message|response]; cbn.
        + rewrite <- IH. split; intros (r & H); exists r;
            [destruct H as [H|H]; [discriminate H | exact H] | right; exact H].
        + rewrite <- IH. split; intros (r & H); exists r;
            [destruct H as [H|H]; [discriminate H | exact H] | right; exact H].
        + split; [discriminate | intros _; exists response; left; reflexivity]. }
    rewrite Hs. destruct (successes ats) as [|r0 l]; cbn.
    + split; [intros H; contradiction H; reflexivity | discriminate].
    + split; [reflexivity | discriminate].
  - clear E. revert Hup. generalize (all_items rs) as items. clear.
    intros items Hup. induction Hup as [s | it rest s ats s' Hy Hrest IH
                  | it rest s r code message s1 ats s' Hy Hd Hu Hrest IH
                  | it rest s r response s1 ats s' Hy Hd Hu Hrest IH];
      unfold update_calls in *; cbn [flat_map filter]; try rewrite Hy;
      try rewrite length_app; try rewrite IH; try rewrite Hd; reflexivity.
Qed.

(** X6. Over the K pages of a filtered scan, [find_movies_by_title]
    returns the items of all pages in order, says how many it found, and
    sends K scans, each filtered on the title. *)
Theorem find_movies_by_title_found :
  forall (fuel : nat) (title : string) (w : World S) (rs : list ScanResponse) (s' : S),
    pages (Some title) None (store w) rs s' ->
    List.length rs <= Datatypes.S fuel ->
    find_movies_by_title fuel title w
    = (Ret (all_items rs),
       typed [MsgSearching title;
              if nonempty (all_items rs)
              then MsgFoundMovies (List.length (all_items rs)) title
              else MsgNoMovieFound title] (stdin w)
         (served s' (requests_of (Some title) None rs) w))
    /\ List.length (requests_of (Some title) None rs) = List.length rs
    /\ forallb (about_title title) (requests_of (Some title) None rs) = true.
Proof.
  intros fuel title w rs s' Hp Hlen.
  split; [exact (find_movies_by_title_pages fuel title w rs s' Hp Hlen)|].
  split; [apply requests_of_length|].
  generalize (@None item) as start. clear.
  induction rs as [|r rs IH]; intros start; cbn; [reflexivity|].
  rewrite String.eqb_refl. apply IH.
Qed.

End HandlerMore.

(** ** The controller, further *)

Section ControllerMore.
Context {S : Type} {T : Table S} {B : Builtins}.

Lemma encodes_serializable : forall o, encodes o = serializable o.
Proof.
  fix IH 1. intros [ | b | z | d | s | s | l | m | l]; try reflexivity.
  - unfold encodes. cbn [encode serializable].
    match goal with |- context [option_map JList (?f l)] => set (go := f) end.
    assert (G : match go l with Some _ => true | None => false end = forallb serializable l).
    { revert l. fix IHl 1. intros [|x l]; [reflexivity|].
      cbn [forallb]. rewrite <- (IH x). unfold encodes.
      change (go (x :: l))
        with (match encode x with
              | Some j => match go l with Some js => Some (j :: js) | None => None end
              | None => None
              end).
      destruct (encode x); [|reflexivity]. cbn.
      rewrite <- (IHl l). destruct (go l); reflexivity. }
    rewrite <- G. destruct (go l); reflexivity.
  - unfold encodes. cbn [encode serializable].
    match goal with |- context [option_map JObj (?f m)] => set (go := f) end.
    assert (G : match go m with Some _ => true | None => false end
                = forallb (fun kv => serializable (snd kv)) m).
    { revert m. fix IHm 1. intros [|[k x] m]; [reflexivity|].
      cbn [forallb snd]. rewrite <- (IH x). unfold encodes.
      change (go ((k, x) :: m))
        with (match encode x with
              | Some j => match go m with Some js => Some ((k, j) :: js) | None => None end
              | None => None
              end).
      destruct (encode x); [|reflexivity]. cbn.
      rewrite <- (IHm m). destruct (go m); reflexivity. }
    rewrite <- G. destruct (go m); reflexivity.
Qed.


(** X7. [json.dumps] with the [DecimalEncoder] writes a record exactly
    when no Binary and no set is anywhere inside it; with one inside it
    raises TypeError. *)
Theorem json_dumps_fails_on_sets_and_bytes :
  forall (record : item) (w : World S),
    (serializable (VMap record) = true ->
     exists j, encode (VMap record) = Some j /\ json_dumps record w = (Ret j, w))
    /\ (serializable (VMap record) = false ->
        json_dumps record w = (Raise TypeError, w)).
Proof.
  intros record w. rewrite <- (encodes_serializable (VMap record)).
  unfold encodes, json_dumps.
  destruct (encode (VMap record)) as [j|]; split; intros H; try discriminate H.
  - exists j. split; reflexivity.
  - reflexivity.
Qed.

Lemma display_each_shown (records : list item) :
  forall js i (w : World S),
    map (fun r => encode (VMap r)) records = map Some js ->
    display_each i records w = (Ret tt, typed (shown i js) (stdin w) w).
Proof.
  induction records as [|record rest IH]; intros [|j js] i w H; try discriminate H.
  - cbn. unfold ret, typed. rewrite app_nil_r. destruct w; reflexivity.
  - cbn [map] in H. injection H as Hj Hrest.
    change (encode (VMap record) = Some j) in Hj.
    cbn [display_each]. unfold bind, print, json_dumps. rewrite Hj. cbn.
    rewrite (IH js (Datatypes.S i) _ Hrest). unfold typed. cbn.
    rewrite <- !app_assoc. reflexivity.
Qed.

Lemma display_each_stops (good : list item) :
  forall js bad rest i (w : World S),
    map (fun r => encode (VMap r)) good = map Some js ->
    encode (VMap bad) = None ->
    display_each i (good ++ bad :: rest) w
    = (Raise TypeError,
       typed (shown i js ++ [MsgRecordHeader (i + List.length good)]) (stdin w) w).
Proof.
  induction good as [|record good IH]; intros [|j js] bad rest i w H Hbad; try discriminate H.
  - cbn [app display_each]. unfold bind, print, json_dumps. rewrite Hbad. cbn.
    rewrite Nat.add_0_r. reflexivity.
  - cbn [map] in H. injection H as Hj Hrest.
    change (encode (VMap record) = Some j) in Hj.
    cbn [app display_each]. unfold bind, print, json_dumps. rewrite Hj. cbn.
    rewrite (IH js bad rest (Datatypes.S i) _ Hrest Hbad). unfold typed. cbn.
    rewrite <- !app_assoc. cbn. rewrite Nat.add_succ_r. reflexivity.
Qed.

Lemma shown_json (js : list json) : forall i, printed_json (shown i js) = js.
Proof. induction js as [|j js IH]; intros i; cbn; [|rewrite IH]; reflexivity. Qed.

Lemma display_records_shown (records : list item) (js : list json) (w : World S) :
  map (fun r => encode (VMap r)) records = map Some js ->
  display_records records w
  = (Ret tt,
     typed (if nonempty records
            then MsgDisplayHeader :: shown 1 js ++ [MsgDisplayFooter]
            else [MsgNoRecords]) (stdin w) w).
Proof.
  intros H. unfold display_records. destruct (nonempty records); [|reflexivity].
  unfold bind at 1. cbn [print].
  rewrite (bind_Ret _ (display_each_shown records js 1 _ H)).
  unfold print, typed. cbn. rewrite <- !app_assoc. reflexivity.
Qed.

(** X8. For records that can be written, [display_records] prints the
    header, then for each record its number, counted from 1, and its
    JSON, then the footer: one document per record, in order.  For no
    records it prints the single line saying so. *)
Theorem display_records_prints :
  forall (records : list item) (js : list json) (w : World S),
    map (fun r => encode (VMap r)) records = map Some js ->
    display_records records w
    = (Ret tt,
       typed (if nonempty records
              then MsgDisplayHeader :: shown 1 js ++ [MsgDisplayFooter]
              else [MsgNoRecords]) (stdin w) w)
    /\ printed_json (shown 1 js) = js
    /\ List.length js = List.length records.
Proof.
  intros records js w H. split; [|split].
  - exact (display_records_shown records js w H).
  - apply shown_json.
  - rewrite <- (length_map Some js), <- H, length_map. reflexivity.
Qed.

(** X9. At the first record holding a Binary or a set, [display_records]
    raises TypeError: the records before it were printed, its own number
    was printed, and nothing after. *)
Theorem display_records_stops_at_first_failure :
  forall (good : list item) (js : list json) (bad : item) (rest : list item) (w : World S),
    map (fun r => encode (VMap r)) good = map Some js ->
    serializable (VMap bad) = false ->
    display_records (good ++ bad :: rest) w
    = (Raise TypeError,
       typed (MsgDisplayHeader :: shown 1 js ++ [MsgRecordHeader (Datatypes.S (List.length good))])
         (stdin w) w).
Proof.
  intros good js bad rest w H Hbad.
  assert (Hnone : encode (VMap bad) = None).
  { rewrite <- (encodes_serializable (VMap bad)) in Hbad. unfold encodes in Hbad.
    destruct (encode (VMap bad)); [discriminate Hbad | reflexivity]. }
  unfold display_records.
  assert (Hne : nonempty (good ++ bad :: rest) = true) by (destruct good; reflexivity).
  rewrite Hne. unfold bind at 1. cbn [print].
  rewrite (bind_Raise _ (display_each_stops good js bad rest 1 _ H Hnone)).
  unfold typed. cbn. rewrite <- !app_assoc. reflexivity.
Qed.

Lemma rating_loop_accepts :
  forall (bad : list string) (good : string) (x : float) (rest : list string)
         (fuel : nat) (w : World S),
    Forall (fun l => float_of_str l = None) bad ->
    float_of_str good = Some x ->
    good <> EmptyString ->
    stdin w = bad ++ good :: rest ->
    List.length bad < fuel ->
    rating_loop fuel w
    = (Ret x, typed (turned_down bad ++ [Asked PromptRating]) rest w).
Proof.
  intros bad good x rest fuel w Hbad Hgood Hne. revert fuel w.
  induction Hbad as [|l bad Hl Hbad IH]; intros fuel w Hin Hlen;
    (destruct fuel as [|fuel]; [cbn in Hlen; lia|]).
  - cbn [rating_loop]. unfold bind, input. cbn in Hin. rewrite Hin. cbn.
    rewrite Hgood.
    destruct (String.eqb good EmptyString) eqn:He;
      [apply String.eqb_eq in He; contradiction (Hne He)|].
    reflexivity.
  - rewrite (rating_loop_invalid fuel l (bad ++ good :: rest) w Hin Hl).
    rewrite (IH fuel (typed [Asked PromptRating; MsgInvalidRating] (bad ++ good :: rest) w)
               eq_refl) by (cbn in Hlen; lia).
    unfold typed, turned_down. cbn. rewrite <- !app_assoc. reflexivity.
Qed.

(** X10. The rating loop turns down, with a message each, the lines that
    [float] rejects, and returns the float of the first line it accepts;
    the lines after that one are left unread. *)
Theorem rating_loop_first_valid :
  forall (bad : list string) (good : string) (x : float) (rest : list string)
         (fuel : nat) (w : World S),
    Forall (fun l => float_of_str l = None) bad ->
    float_of_str good = Some x ->
    good <> EmptyString ->
    stdin w = bad ++ good :: rest ->
    List.length bad < fuel ->
    rating_loop fuel w
    = (Ret x, typed (turned_down bad ++ [Asked PromptRating]) rest w).
Proof.
  intros bad good x rest fuel w Hbad Hgood Hne Hin Hlen.
  exact (rating_loop_accepts bad good x rest fuel w Hbad Hgood Hne Hin Hlen).
Qed.

(** X11. Choice 2 reads the title, then rating lines up to the first one
    [float] accepts, and calls [update_movie_rating_by_title] on that
    title and float; what the update returns is dropped. *)
Theorem menu_update_asks_then_updates :
  forall (fuel : nat) (title : string) (bad : list string) (good : string) (x : float)
         (rest : list string) (w : World S),
    Forall (fun l => float_of_str l = None) bad ->
    float_of_str good = Some x ->
    good <> EmptyString ->
    stdin w = title :: bad ++ good :: rest ->
    List.length bad < fuel ->
    menu_update fuel w
    = (update_movie_rating_by_title fuel title x ;; ret tt)
        (typed ([MsgUpdateBanner; Asked PromptUpdateTitle] ++ turned_down bad
                ++ [Asked PromptRating]) rest w).
Proof.
  intros fuel title bad good x rest w Hbad Hgood Hne Hin Hlen.
  unfold menu_update. unfold bind at 1. cbn [print].
  unfold bind at 1. unfold input. cbn. rewrite Hin.
  erewrite bind_Ret
    by (apply (rating_loop_accepts bad good x rest fuel); [exact Hbad | exact Hgood
        | exact Hne | reflexivity | exact Hlen]).
  unfold typed. cbn. rewrite <- !app_assoc. reflexivity.
Qed.

Lemma main_run (n fuel : nat) (w : World S) :
  main n fuel w
  = match (DynamoDBHandler_init DYNAMODB_TABLE_NAME AWS_REGION ;; main_loop n fuel)
            (typed [MsgStarting] (stdin w) w) with
    | (Ret _, w1) => (Ret tt, typed [MsgFinished] (stdin w1) w1)
    | (Raise (Exc e), w1) => (Ret tt, typed [MsgMainError e; MsgFinished] (stdin w1) w1)
    | (Raise b, w1) => (Raise b, w1)
    | (OutOfFuel, w1) => (OutOfFuel, w1)
    end.
Proof.
  unfold main. unfold bind at 1. cbn [print].
  unfold bind at 1. unfold try_except.
  change (mkWorld (store w) (calls w) (stdout w ++ [MsgStarting]) (stdin w))
    with (typed [MsgStarting] (stdin w) w).
  destruct ((DynamoDBHandler_init DYNAMODB_TABLE_NAME AWS_REGION ;; main_loop n fuel)
              (typed [MsgStarting] (stdin w) w)) as [[[]|[e| |]|] w1]; cbn.
  - reflexivity.
  - unfold print, typed. cbn. rewrite <- ?app_assoc. reflexivity.
  - reflexivity.
  - reflexivity.
  - reflexivity.
Qed.

(** X12. [main] lets no Exception out.  When the session raised one, it
    is printed, then the closing line, and [main] returns; whenever
    [main] returns, the closing line is the last one printed.  A
    KeyboardInterrupt or a SystemExit is no Exception: it goes through
    [main] as it came, with no error line and no closing line. *)
Theorem main_catches_exceptions :
  forall (n fuel : nat) (w : World S),
    (forall e : exn, fst (main n fuel w) <> Raise e)
    /\ (fst (main n fuel w) = Ret tt ->
        exists out, stdout (snd (main n fuel w)) = out ++ [MsgFinished])
    /\ (forall (e : exn) w1,
          (DynamoDBHandler_init DYNAMODB_TABLE_NAME AWS_REGION ;; main_loop n fuel)
            (typed [MsgStarting] (stdin w) w) = (Raise e, w1) ->
          main n fuel w = (Ret tt, typed [MsgMainError e; MsgFinished] (stdin w1) w1))
    /\ (forall (b : raised) w1,
          b = KeyboardInterrupt \/ b = SystemExit ->
          (DynamoDBHandler_init DYNAMODB_TABLE_NAME AWS_REGION ;; main_loop n fuel)
            (typed [MsgStarting] (stdin w) w) = (Raise b, w1) ->
          main n fuel w = (Raise b, w1)).
Proof.
  intros n fuel w. rewrite (main_run n fuel w).
  destruct ((DynamoDBHandler_init DYNAMODB_TABLE_NAME AWS_REGION ;; main_loop n fuel)
              (typed [MsgStarting] (stdin w) w)) as [[[]|[e| |]|] w1]; cbn.
  - split; [discriminate|]. split; [|split].
    + intros _. exists (stdout w1). reflexivity.
    + intros e w2 H. discriminate H.
    + intros b w2 _ H. discriminate H.
  - split; [discriminate|]. split; [|split].
    + intros _. exists (stdout w1 ++ [MsgMainError e]). rewrite <- ?app_assoc. reflexivity.
    + intros e' w2 H. injection H as <- <-. reflexivity.
    + intros b w2 [-> | ->] H; discriminate H.
  - split; [discriminate|]. split; [discriminate|]. split.
    + intros e w2 H. discriminate H.
    + intros b w2 _ H. injection H as <- <-. reflexivity.
  - split; [discriminate|]. split; [discriminate|]. split.
    + intros e w2 H. discriminate H.
    + intros b w2 _ H. injection H as <- <-. reflexivity.
  - split; [discriminate|]. split; [discriminate|]. split.
    + intros e w2 H. discriminate H.
    + intros b w2 _ H. discriminate H.
Qed.

(** X13. When the table cannot be set up, [main] prints the error twice,
    once from the handler and once at the top, then the closing line; no
    menu is shown, no input is read and no request is sent. *)
Theorem main_connection_failure :
  forall (n fuel : nat) (w : World S) (e : exn) (s' : S),
    connect DYNAMODB_TABLE_NAME AWS_REGION (store w) = (Fault e, s') ->
    main n fuel w
    = (Ret tt,
       mkWorld s' (calls w)
         (stdout w ++ [MsgStarting; MsgConnectError e; MsgMainError e; MsgFinished])
         (stdin w)).
Proof.
  intros n fuel w e s' Hc. rewrite (main_run n fuel w).
  unfold bind, DynamoDBHandler_init, try_except. cbn. rewrite Hc. cbn.
  unfold typed. cbn. rewrite <- ?app_assoc. reflexivity.
Qed.

Lemma print_menu_run (w : World S) :
  print_menu w = (Ret tt, typed menu_lines (stdin w) w).
Proof.
  unfold print_menu, bind, print, typed, menu_lines. cbn.
  rewrite <- ?app_assoc. reflexivity.
Qed.

(** X14. At the menu: the end of the input raises EOFError; choice 5
    leaves the loop with nothing sent; a line that is none of 1 to 5 is
    reported and the menu comes again. *)
Theorem menu_choices :
  forall (n fuel : nat) (w : World S),
    (stdin w = [] ->
     main_loop (Datatypes.S n) fuel w
     = (Raise EOFError, typed (menu_lines ++ [Asked PromptChoice]) [] w))
    /\ (forall choice rest,
          stdin w = choice :: rest ->
          (choice = "5" ->
           main_loop (Datatypes.S n) fuel w
           = (Ret tt, typed (menu_lines ++ [Asked PromptChoice]) rest w))
          /\ (~ In choice ["1"; "2"; "3"; "4"; "5"] ->
              main_loop (Datatypes.S n) fuel w
              = main_loop n fuel
                  (typed (menu_lines ++ [Asked PromptChoice; MsgInvalidChoice]) rest w))).
Proof.
  intros n fuel w. split.
  - intros Hin. cbn [main_loop]. rewrite (bind_Ret _ (print_menu_run w)).
    unfold bind, input. cbn. rewrite Hin. unfold typed. cbn.
    rewrite <- ?app_assoc. reflexivity.
  - intros choice rest Hin.
    assert (E : forall A (k : string -> M S A),
               (choice <- input PromptChoice ;; k choice) (typed menu_lines (stdin w) w)
               = k choice (typed (menu_lines ++ [Asked PromptChoice]) rest w)).
    { intros A k. unfold bind, input. cbn. rewrite Hin. unfold typed. cbn.
      rewrite <- ?app_assoc. reflexivity. }
    split.
    + intros ->. cbn [main_loop]. rewrite (bind_Ret _ (print_menu_run w)).
      rewrite E. reflexivity.
    + intros Hno. cbn [main_loop]. rewrite (bind_Ret _ (print_menu_run w)).
      rewrite E.
      destruct (String.eqb choice "1") eqn:E1;
        [apply String.eqb_eq in E1; contradiction Hno; subst; cbn; auto|].
      destruct (String.eqb choice "2") eqn:E2;
        [apply String.eqb_eq in E2; contradiction Hno; subst; cbn; auto|].
      destruct (String.eqb choice "3") eqn:E3;
        [apply String.eqb_eq in E3; contradiction Hno; subst; cbn; auto|].
      destruct (String.eqb choice "4") eqn:E4;
        [apply String.eqb_eq in E4; contradiction Hno; subst; cbn; auto|].
      destruct (String.eqb choice "5") eqn:E5;
        [apply String.eqb_eq in E5; contradiction Hno; subst; cbn; auto 6|].
      unfold bind, print, typed. cbn. rewrite <- ?app_assoc. reflexivity.
Qed.


Lemma any_year_found (y : value) (found : list item) (w : World S) :
  (forall movie, In movie found -> dict_get movie "year" <> None) ->
  (exists movie v, In movie found /\ dict_get movie "year" = Some v /\ py_eq v y = true) ->
  any_year y found w = (Ret true, w).
Proof.
  induction found as [|m rest IH]; intros Hall (movie & v & Hin & Hv & He).
  - destruct Hin.
  - cbn [any_year]. unfold bind, getitem.
    destruct (dict_get m "year") as [v0|] eqn:Hm;
      [|contradiction (Hall m (or_introl eq_refl) Hm)].
    cbn. destruct (py_eq v0 y) eqn:E0; [reflexivity|].
    apply IH.
    + intros m' Hm'. apply Hall. right. exact Hm'.
    + destruct Hin as [<- | Hin].
      * rewrite Hm in Hv. injection Hv as <-. rewrite E0 in He. discriminate He.
      * exists movie, v. auto.
Qed.

(** The end of the delete flow once a year that is not None was chosen and
    found among the records. *)
Lemma delete_found_chosen (title : string) (found : list item) (y : value)
    (w w1 : World S) :
  nonempty found = true ->
  choose_year found w = (Ret y, w1) ->
  y <> VNone ->
  any_year y found w1 = (Ret true, w1) ->
  delete_found title found w = (delete_movie y title ;; ret tt) w1.
Proof.
  intros Hne Hc Hy Hany. unfold delete_found. rewrite Hne. rewrite (bind_Ret _ Hc).
  destruct y; try (rewrite (bind_Ret _ Hany); reflexivity).
  contradiction Hy. reflexivity.
Qed.

(** X15. In the delete flow with one match, when the record can be shown,
    has its title and a year that is not None and equals itself, the
    answer y or Y sends the delete under the record's own year and the
    title as typed. *)
Theorem delete_single_confirmed :
  forall (fuel : nat) (title c : string) (rest : list string) (movie : item)
         (t y : value) (w w2 : World S),
    stdin w = title :: c :: rest ->
    find_movies_by_title fuel title
      (typed [MsgDeleteBanner; Asked PromptDeleteTitle] (c :: rest) w)
    = (Ret [movie], w2) ->
    serializable (VMap movie) = true ->
    dict_get movie "title" = Some t ->
    dict_get movie "year" = Some y ->
    y <> VNone ->
    py_eq y y = true ->
    c = "y" \/ c = "Y" ->
    exists j,
      encode (VMap movie) = Some j
      /\ menu_delete fuel w
         = (delete_movie y title ;; ret tt)
             (typed [MsgFoundOne; MsgDisplayHeader; MsgRecordHeader 1; MsgRecordJson j;
                     MsgDisplayFooter; Asked (PromptConfirm t y)] rest w2)
      /\ calls (snd (menu_delete fuel w)) = calls w2 ++ [CDelete (delete_request y title)].
Proof.
  intros fuel title c rest movie t y w w2 Hin Hfind Hser Ht Hy Hnone Hrefl Hc.
  destruct (menu_delete_after_lookup fuel title (c :: rest) [movie] w w2 Hin Hfind)
    as (E & Hrest).
  rewrite <- (encodes_serializable (VMap movie)) in Hser. unfold encodes in Hser.
  destruct (encode (VMap movie)) as [j|] eqn:Hj; [|discriminate Hser].
  exists j. split; [reflexivity|].
  assert (Hl : String.eqb (lower c) "y" = true) by (destruct Hc as [-> | ->]; reflexivity).
  assert (Hchoose : choose_year [movie] w2
                    = (Ret y, typed [MsgFoundOne; MsgDisplayHeader; MsgRecordHeader 1;
                                     MsgRecordJson j; MsgDisplayFooter;
                                     Asked (PromptConfirm t y)] rest w2)).
  { unfold choose_year. unfold bind at 1. cbn [print].
    assert (Hd := display_records_shown [movie] [j]
                    (mkWorld (store w2) (calls w2) (stdout w2 ++ [MsgFoundOne]) (stdin w2))).
    cbn [map] in Hd. rewrite Hj in Hd. specialize (Hd eq_refl).
    rewrite (bind_Ret _ Hd).
    unfold bind, getitem, input. rewrite Ht, Hy. cbn. rewrite Hrest. cbn. rewrite Hl.
    cbn. unfold typed. cbn. rewrite <- ?app_assoc. reflexivity. }
  assert (Hrun : menu_delete fuel w
                 = (delete_movie y title ;; ret tt)
                     (typed [MsgFoundOne; MsgDisplayHeader; MsgRecordHeader 1; MsgRecordJson j;
                             MsgDisplayFooter; Asked (PromptConfirm t y)] rest w2)).
  { rewrite E. apply (delete_found_chosen title [movie] y w2 _ eq_refl Hchoose Hnone).
    cbn [any_year]. unfold bind, getitem. rewrite Hy. cbn. rewrite Hrefl. reflexivity. }
  split; [exact Hrun|].
  rewrite Hrun. unfold bind.
  match goal with |- context [delete_movie y title ?w0] =>
    pose proof (delete_movie_calls y title w0) as (Hcalls & _);
    destruct (delete_movie y title w0) as [[r|e|] w3]
  end; cbn in Hcalls |- *; exact Hcalls.
Qed.

(** X16. In the delete flow with several matches, when the records can be
    shown and each has a year, a line that [int] reads as the year of one
    of them sends the delete under that integer and the title as typed. *)
Theorem delete_multi_confirmed :
  forall (fuel : nat) (title ystr : string) (rest : list string) (found : list item)
         (js : list json) (z : Z) (w w2 : World S),
    stdin w = title :: ystr :: rest ->
    find_movies_by_title fuel title
      (typed [MsgDeleteBanner; Asked PromptDeleteTitle] (ystr :: rest) w)
    = (Ret found, w2) ->
    2 <= List.length found ->
    map (fun r => encode (VMap r)) found = map Some js ->
    int_of_str ystr = Some z ->
    (forall movie, In movie found -> dict_get movie "year" <> None) ->
    (exists movie v, In movie found /\ dict_get movie "year" = Some v
                     /\ py_eq v (VInt z) = true) ->
    menu_delete fuel w
    = (delete_movie (VInt z) title ;; ret tt)
        (typed (MsgFoundMultiple :: MsgDisplayHeader :: shown 1 js
                ++ [MsgDisplayFooter; Asked PromptYear]) rest w2)
    /\ calls (snd (menu_delete fuel w))
       = calls w2 ++ [CDelete (delete_request (VInt z) title)].
Proof.
  intros fuel title ystr rest found js z w w2 Hin Hfind Hlen Hjs Hz Hall Hex.
  destruct (menu_delete_after_lookup fuel title (ystr :: rest) found w w2 Hin Hfind)
    as (E & Hrest).
  assert (Hne : nonempty found = true) by (destruct found; [cbn in Hlen; lia | reflexivity]).
  assert (Hchoose : choose_year found w2
                    = (Ret (VInt z),
                       typed (MsgFoundMultiple :: MsgDisplayHeader :: shown 1 js
                              ++ [MsgDisplayFooter; Asked PromptYear]) rest w2)).
  { pose proof (display_records_shown found js
                  (mkWorld (store w2) (calls w2) (stdout w2 ++ [MsgFoundMultiple]) (stdin w2))
                  Hjs) as Hd.
    rewrite Hne in Hd.
    destruct found as [|m1 [|m2 more]]; cbn in Hlen; try lia.
    unfold choose_year. unfold bind at 1. cbn [print].
    rewrite (bind_Ret _ Hd).
    unfold try_except, bind, input, int_str. cbn. rewrite Hrest. cbn. rewrite Hz. cbn.
    unfold typed. cbn. rewrite <- ?app_assoc. cbn. rewrite <- ?app_assoc. reflexivity. }
  assert (Hrun : menu_delete fuel w
                 = (delete_movie (VInt z) title ;; ret tt)
                     (typed (MsgFoundMultiple :: MsgDisplayHeader :: shown 1 js
                             ++ [MsgDisplayFooter; Asked PromptYear]) rest w2)).
  { rewrite E. apply (delete_found_chosen title found (VInt z) w2 _ Hne Hchoose).
    - discriminate.
    - apply any_year_found; assumption. }
  split; [exact Hrun|].
  rewrite Hrun. unfold bind.
  match goal with |- context [delete_movie (VInt z) title ?w0] =>
    pose proof (delete_movie_calls (VInt z) title w0) as (Hcalls & _);
    destruct (delete_movie (VInt z) title w0) as [[r|e|] w3]
  end; cbn in Hcalls |- *; exact Hcalls.
Qed.

(** X17. Choice 1 shows what [get_all_records] returns: all the items of
    the pages, or the line saying there are none for an empty table; when
    a scan raises a ClientError, the error is printed and nothing is
    shown. *)
Theorem menu_fetch_all_shows :
  forall (fuel : nat) (w : World S),
    (forall rs s' js,
        pages None None (store w) rs s' ->
        List.length rs <= Datatypes.S fuel ->
        map (fun r => encode (VMap r)) (all_items rs) = map Some js ->
        menu_fetch_all fuel w
        = (Ret tt,
           typed ([MsgFetchingAll; MsgScanning;
                   MsgFoundRecords (List.length (all_items rs))]
                  ++ (if nonempty (all_items rs)
                      then MsgDisplayHeader :: shown 1 js ++ [MsgDisplayFooter]
                      else [MsgNoRecords]))
             (stdin w) (served s' (requests_of None None rs) w)))
    /\ (forall rs code message s',
          pages_fault None None (store w) rs (ClientError code message) s' ->
          List.length rs <= fuel ->
          menu_fetch_all fuel w
          = (Ret tt,
             typed [MsgFetchingAll; MsgScanning; MsgError message] (stdin w)
               (served s' (fault_requests None None rs) w))).
Proof.
  intros fuel w. split.
  - intros rs s' js Hp Hlen Hjs.
    unfold menu_fetch_all. unfold bind at 1. cbn [print].
    erewrite bind_Ret by (apply get_all_records_found; [exact Hp | exact Hlen]).
    cbv beta iota.
    match goal with |- display_records _ ?w0 = _ =>
      pose proof (display_records_shown (all_items rs) js w0 Hjs) as Hd end.
    rewrite Hd. unfold typed, served. cbn.
    destruct (nonempty (all_items rs)); cbn; rewrite <- ?app_assoc; reflexivity.
  - intros rs code message s' Hp Hlen.
    unfold menu_fetch_all. unfold bind at 1. cbn [print].
    rewrite (bind_Ret _ (get_all_records_refused fuel (typed [MsgFetchingAll] (stdin w) w)
                           rs code message s' Hp Hlen)).
    unfold ret, typed, served. cbn. rewrite <- ?app_assoc. reflexivity.
Qed.

(** X18. Choice 3 shows the records found; with none found it prints
    nothing beyond what the lookup printed. *)
Theorem menu_find_shows_what_it_finds :
  forall (fuel : nat) (title : string) (rest : list string) (found : list item)
         (js : list json) (w w2 : World S),
    stdin w = title :: rest ->
    find_movies_by_title fuel title (typed [MsgFindBanner; Asked PromptFindTitle] rest w)
    = (Ret found, w2) ->
    map (fun r => encode (VMap r)) found = map Some js ->
    menu_find fuel w
    = (Ret tt,
       typed (if nonempty found
              then MsgDisplayHeader :: shown 1 js ++ [MsgDisplayFooter]
              else []) (stdin w2) w2).
Proof.
  intros fuel title rest found js w w2 Hin Hfind Hjs.
  unfold menu_find. unfold bind at 1. cbn [print].
  unfold bind at 1. unfold input. cbn. rewrite Hin.
  unfold typed in Hfind. rewrite <- app_assoc. cbn [app].
  rewrite (bind_Ret _ Hfind).
  pose proof (display_records_shown found js w2 Hjs) as Hd.
  destruct (nonempty found).
  - exact Hd.
  - unfold ret, typed. rewrite app_nil_r. destruct w2; reflexivity.
Qed.

End ControllerMore.

(** ** Further runs on the table in memory *)

Import Sessions.

Lemma update_movie_rating_one_request_witness :
  let w := MemTable.world [matrix] 0 [] [] in
  let year := VDec (Dec false 1999 0) in
  @update_movie_rating _ T B year "The Matrix" f9_0 w
  = (Ret (Some {| Attributes := Some [("info", VMap [("rating", VDec (Dec false 90 (-1)))])];
                  ResponseMetadata := [] |}),
     typed [MsgUpdating "The Matrix" year f9_0; MsgUpdateSuccessful] []
       (served (table_of [MemTable.movie 1999 "The Matrix" (Dec false 90 (-1))] [])
          [CUpdate (update_request year "The Matrix" (Dec false 90 (-1)))] w)).
Proof.
  intros w year.
  apply (proj1 (proj2 (proj1 (@update_movie_rating_one_request _ T B year "The Matrix" f9_0 w)
                         (Dec false 90 (-1)) eq_refl))).
  reflexivity.
Defined.

Lemma other_faults_propagate_witness :
  let w := MemTable.world four_rows 0 [Some endpoint_down] [] in
  @get_all_records _ T 5 w
  = (Raise endpoint_down,
     typed [MsgScanning] [] (served (table_of four_rows []) (fault_requests None None []) w))
  /\ @find_movies_by_title _ T 5 "X" w
     = (Raise endpoint_down,
        typed [MsgSearching "X"] []
          (served (table_of four_rows []) (fault_requests (Some "X") None []) w)).
Proof.
  intros w.
  pose proof (@other_faults_propagate _ T B 5 "X" f9_0 w [] endpoint_down
                (table_of four_rows [])) as H.
  assert (He : forall code message, endpoint_down <> ClientError code message)
    by (intros code message; discriminate).
  assert (Hlen : List.length (@nil ScanResponse) <= 5) by (cbn; lia).
  destruct (H He Hlen) as (H1 & H2). split.
  - apply H1. apply fault_now. reflexivity.
  - apply H2. apply fault_now. reflexivity.
Defined.

Lemma update_by_title_aggregates_witness :
  let w := MemTable.world four_rows 0 [None; None; Some throttled; None] [] in
  let done := {| Attributes := Some [("info", VMap [("rating", VDec (Dec false 90 (-1)))])];
                 ResponseMetadata := [] |} in
  fst (@update_movie_rating_by_title _ T B 5 "X" f9_0 w) = Ret (Some [done; done])
  /\ List.length (@update_calls B "X" f9_0 (all_items [page_x])) = 3.
Proof.
  intros w done.
  assert (Hup : exists s2,
             @updates _ T B "X" f9_0 (all_items [page_x])
               (table_of four_rows [None; Some throttled; None])
               [Updated done; Failed "ProvisionedThroughputExceededException" "Rate exceeded";
                Updated done] s2).
  { eexists.
    eapply updates_ok with (r := Dec false 90 (-1));
      [reflexivity | vm_compute; reflexivity | vm_compute; reflexivity |].
    eapply updates_fail with (r := Dec false 90 (-1));
      [reflexivity | vm_compute; reflexivity | vm_compute; reflexivity |].
    eapply updates_ok with (r := Dec false 90 (-1));
      [reflexivity | vm_compute; reflexivity | vm_compute; reflexivity |].
    apply updates_nil. }
  destruct Hup as (s2 & Hup).
  destruct (@update_by_title_aggregates _ T B 5 "X" f9_0 w [page_x]
              (table_of four_rows [None; Some throttled; None])
              [Updated done; Failed "ProvisionedThroughputExceededException" "Rate exceeded";
               Updated done] s2)
    as ((out & E) & _ & Hcount).
  - apply pages_last; reflexivity.
  - cbn. lia.
  - discriminate.
  - exact Hup.
  - split.
    + rewrite E. reflexivity.
    + rewrite Hcount. reflexivity.
Defined.

Lemma find_movies_by_title_found_witness :
  let w := MemTable.world four_rows 0 [] [] in
  @find_movies_by_title _ T 5 "X" w
  = (Ret three_x,
     typed [MsgSearching "X"; MsgFoundMovies 3 "X"] []
       (served (store w) (requests_of (Some "X") None [page_x]) w)).
Proof.
  intros w.
  refine (proj1 (@find_movies_by_title_found _ T 5 "X" w [page_x] (store w) _ _)).
  - apply pages_last; reflexivity.
  - cbn. lia.
Defined.

Lemma json_dumps_fails_on_sets_and_bytes_witness :
  (exists j, @encode B (VMap matrix) = Some j
             /\ @json_dumps _ B matrix (MemTable.world [] 0 [] []) = (Ret j, MemTable.world [] 0 [] []))
  /\ @json_dumps _ B tagged (MemTable.world [] 0 [] [])
     = (Raise TypeError, MemTable.world [] 0 [] []).
Proof.
  split.
  - apply (proj1 (@json_dumps_fails_on_sets_and_bytes _ B matrix (MemTable.world [] 0 [] []))).
    reflexivity.
  - apply (proj2 (@json_dumps_fails_on_sets_and_bytes _ B tagged (MemTable.world [] 0 [] []))).
    reflexivity.
Defined.

Lemma display_records_prints_witness :
  let w := MemTable.world [] 0 [] [] in
  @display_records _ B three_x w
  = (Ret tt, typed (MsgDisplayHeader :: shown 1 three_x_json ++ [MsgDisplayFooter]) [] w)
  /\ printed_json (shown 1 three_x_json) = three_x_json
  /\ List.length three_x_json = 3.
Proof.
  intros w. apply (@display_records_prints _ B three_x three_x_json w).
  vm_compute. reflexivity.
Defined.

Lemma display_records_stops_at_first_failure_witness :
  let w := MemTable.world [] 0 [] [] in
  @display_records _ B ([matrix] ++ tagged :: three_x) w
  = (Raise TypeError,
     typed (MsgDisplayHeader :: shown 1 [matrix_json] ++ [MsgRecordHeader 2]) [] w).
Proof.
  intros w.
  apply (@display_records_stops_at_first_failure _ B [matrix] [matrix_json] tagged three_x w).
  - vm_compute. reflexivity.
  - reflexivity.
Defined.

Lemma rating_loop_first_valid_witness :
  let w := MemTable.world [] 0 [] ["abc"; ""; "8.5"; "1"] in
  @rating_loop _ B 3 w
  = (Ret f8_5, typed (turned_down ["abc"; ""] ++ [Asked PromptRating]) ["1"] w).
Proof.
  intros w.
  apply (@rating_loop_first_valid _ B ["abc"; ""] "8.5" f8_5 ["1"] 3 w).
  - repeat constructor.
  - vm_compute. reflexivity.
  - discriminate.
  - reflexivity.
  - cbn. lia.
Defined.

Lemma menu_update_asks_then_updates_witness :
  let w := MemTable.world [matrix] 0 [] ["The Matrix"; "high"; "8.5"; "5"] in
  @menu_update _ T B 3 w
  = (@update_movie_rating_by_title _ T B 3 "The Matrix" f8_5 ;; ret tt)
      (typed ([MsgUpdateBanner; Asked PromptUpdateTitle] ++ turned_down ["high"]
              ++ [Asked PromptRating]) ["5"] w).
Proof.
  intros w.
  apply (@menu_update_asks_then_updates _ T B 3 "The Matrix" ["high"] "8.5" f8_5 ["5"] w).
  - repeat constructor.
  - vm_compute. reflexivity.
  - discriminate.
  - reflexivity.
  - cbn. lia.
Defined.

Lemma main_catches_exceptions_witness :
  (let w := MemTable.world [matrix] 0 [] ["3"] in
   @main _ T B 3 3 w
   = (Ret tt,
      typed [MsgMainError EOFError; MsgFinished] []
        (typed (MsgStarting :: menu_lines ++ [Asked PromptChoice; MsgFindBanner;
                                              Asked PromptFindTitle]) [] w)))
  /\ @main _ interrupted B 3 3 (mkWorld tt [] [] ["1"; "5"])
     = (Raise KeyboardInterrupt,
        mkWorld tt
          [CScan {| FilterExpression := None; ExclusiveStartKey := None |}]
          (MsgStarting :: menu_lines ++ [Asked PromptChoice; MsgFetchingAll; MsgScanning])
          ["5"]).
Proof.
  split.
  - intros w.
    apply (proj1 (proj2 (proj2 (@main_catches_exceptions _ T B 3 3 w))) EOFError).
    reflexivity.
  - apply (proj2 (proj2 (proj2 (@main_catches_exceptions _ interrupted B 3 3
                                  (mkWorld tt [] [] ["1"; "5"]))))
             KeyboardInterrupt).
    + left. reflexivity.
    + reflexivity.
Defined.

Lemma main_connection_failure_witness :
  @main _ unreachable B 3 3 (mkWorld tt [] [] ["1"; "5"])
  = (Ret tt,
     mkWorld tt []
       [MsgStarting; MsgConnectError no_region; MsgMainError no_region; MsgFinished]
       ["1"; "5"]).
Proof.
  apply (@main_connection_failure _ unreachable B 3 3 (mkWorld tt [] [] ["1"; "5"])
           no_region tt).
  reflexivity.
Defined.

Lemma menu_choices_witness :
  let w := MemTable.world [matrix] 0 [] ["7"; "5"] in
  @main_loop _ T B 3 3 w
  = @main_loop _ T B 2 3 (typed (menu_lines ++ [Asked PromptChoice; MsgInvalidChoice]) ["5"] w)
  /\ @main_loop _ T B 2 3 (typed (menu_lines ++ [Asked PromptChoice; MsgInvalidChoice]) ["5"] w)
     = (Ret tt,
        typed (menu_lines ++ [Asked PromptChoice]) []
          (typed (menu_lines ++ [Asked PromptChoice; MsgInvalidChoice]) ["5"] w)).
Proof.
  intros w. split.
  - apply (proj2 (proj2 (@menu_choices _ T B 2 3 w) "7" ["5"] eq_refl)).
    cbn. intros [H | [H | [H | [H | [H | []]]]]]; discriminate H.
  - apply (proj1 (proj2 (@menu_choices _ T B 1 3
                           (typed (menu_lines ++ [Asked PromptChoice; MsgInvalidChoice]) ["5"] w))
                    "5" [] eq_refl)).
    reflexivity.
Defined.

Lemma delete_single_confirmed_witness :
  let w := MemTable.world [matrix] 0 [] ["The Matrix"; "Y"] in
  let w2 := snd (@find_movies_by_title _ T 5 "The Matrix"
                   (typed [MsgDeleteBanner; Asked PromptDeleteTitle] ["Y"] w)) in
  exists j,
    @encode B (VMap matrix) = Some j
    /\ @menu_delete _ T B 5 w
       = (@delete_movie _ T (VDec (Dec false 1999 0)) "The Matrix" ;; ret tt)
           (typed [MsgFoundOne; MsgDisplayHeader; MsgRecordHeader 1; MsgRecordJson j;
                   MsgDisplayFooter;
                   Asked (PromptConfirm (VStr "The Matrix") (VDec (Dec false 1999 0)))] [] w2)
    /\ calls (snd (@menu_delete _ T B 5 w))
       = calls w2 ++ [CDelete (delete_request (VDec (Dec false 1999 0)) "The Matrix")].
Proof.
  intros w w2.
  apply (@delete_single_confirmed _ T B 5 "The Matrix" "Y" [] matrix (VStr "The Matrix")
           (VDec (Dec false 1999 0)) w w2); try reflexivity.
  - discriminate.
  - right. reflexivity.
Defined.

Lemma delete_multi_confirmed_witness :
  let w := MemTable.world four_rows 0 [] ["X"; "2002"] in
  let w2 := snd (@find_movies_by_title _ T 5 "X"
                   (typed [MsgDeleteBanner; Asked PromptDeleteTitle] ["2002"] w)) in
  @menu_delete _ T B 5 w
  = (@delete_movie _ T (VInt 2002) "X" ;; ret tt)
      (typed (MsgFoundMultiple :: MsgDisplayHeader :: shown 1 three_x_json
              ++ [MsgDisplayFooter; Asked PromptYear]) [] w2)
  /\ calls (snd (@menu_delete _ T B 5 w))
     = calls w2 ++ [CDelete (delete_request (VInt 2002) "X")].
Proof.
  intros w w2.
  apply (@delete_multi_confirmed _ T B 5 "X" "2002" [] three_x three_x_json 2002%Z w w2).
  - reflexivity.
  - reflexivity.
  - cbn. lia.
  - vm_compute. reflexivity.
  - reflexivity.
  - intros movie [<- | [<- | [<- | []]]]; discriminate.
  - exists (MemTable.movie 2002 "X" d5), (VDec (Dec false 2002 0)).
    split; [right; left; reflexivity | split; reflexivity].
Defined.

Lemma menu_fetch_all_shows_witness :
  (let w := MemTable.world four_rows 3 [] [] in
   @menu_fetch_all _ T B 5 w
   = (Ret tt,
      typed ([MsgFetchingAll; MsgScanning; MsgFoundRecords 4]
             ++ MsgDisplayHeader :: shown 1 four_rows_json ++ [MsgDisplayFooter])
        [] (served (store w) (requests_of None None [page1; page2]) w)))
  /\ (let w := MemTable.world four_rows 3 [Some throttled] [] in
      @menu_fetch_all _ T B 5 w
      = (Ret tt,
         typed [MsgFetchingAll; MsgScanning; MsgError "Rate exceeded"] []
           (served {| MemTable.rows := four_rows; MemTable.page_size := 3;
                      MemTable.schedule := [] |}
              (fault_requests None None []) w))).
Proof.
  split.
  - intros w.
    apply (proj1 (@menu_fetch_all_shows _ T B 5 w) [page1; page2] (store w) four_rows_json).
    + eapply pages_next; [reflexivity | reflexivity |].
      eapply pages_last; reflexivity.
    + cbn. lia.
    + vm_compute. reflexivity.
  - intros w.
    apply (proj2 (@menu_fetch_all_shows _ T B 5 w) []
             "ProvisionedThroughputExceededException" "Rate exceeded"
             {| MemTable.rows := four_rows; MemTable.page_size := 3; MemTable.schedule := [] |}).
    + apply fault_now. reflexivity.
    + cbn. lia.
Defined.

Lemma menu_find_shows_what_it_finds_witness :
  let w := MemTable.world four_rows 0 [] ["X"; "5"] in
  let w2 := snd (@find_movies_by_title _ T 5 "X"
                   (typed [MsgFindBanner; Asked PromptFindTitle] ["5"] w)) in
  @menu_find _ T B 5 w
  = (Ret tt, typed (MsgDisplayHeader :: shown 1 three_x_json ++ [MsgDisplayFooter]) ["5"] w2).
Proof.
  intros w w2.
  apply (@menu_find_shows_what_it_finds _ T B 5 "X" ["5"] three_x three_x_json w w2).
  - reflexivity.
  - reflexivity.
  - vm_compute. reflexivity.
Defined.
